(** * SpaceMouseDrawingMode: the background HID listener

    A shallow embedding of [spacemouse_hid.py] (class [SpaceMouseListener]):
    the raw-input decoder [_on_raw_input], the axis-to-gesture converter
    [_apply] with its [SendInput] helpers, the window procedure [_wnd_proc],
    the thread body [_message_loop], [start] and [stop]; of the settings and
    workspace handling of [SpaceMouseDrawingMode.py] (module [AddIn]); and of
    the registration loop of [MENSEKI_Addin.py] (module [Menseki]).

    Conventions of the embedding.
    - Python [int] is [Z]; [bytes] is [list byte].
    - The three tunables and the zoom accumulator are Python floats.  They are
      embedded as exact rationals ([Q]): products, sums and comparisons are
      the mathematical ones, and IEEE-754 rounding, infinities and NaN are
      outside the model.  Equalities between accumulator values are therefore
      stated with [==] on [Q].
    - A method of the listener is a computation in the monad [M]: it reads and
      writes the fields of [self] and appends to the list of synthesized
      mouse actions, in program order. *)

From Stdlib Require Import Strings.String.
From Stdlib Require Import ZArith QArith Qabs Qround Lqa Lia List Bool.
From Stdlib Require Import Strings.Byte.
From coqutil Require Import Byte Word.LittleEndianList.
Import ListNotations.

Local Open Scope Z_scope.

(** ** Tunables and listener fields *)

(** The class attributes [PAN_SCALE], [ZOOM_SCALE], [DEAD_ZONE];
    [apply_settings] overwrites them while the listener runs. *)
Record Settings : Type := {
  PAN_SCALE  : Q;
  ZOOM_SCALE : Q;
  DEAD_ZONE  : Z
}.

Definition DEFAULT_SETTINGS : Settings :=
  {| PAN_SCALE := 8 # 100; ZOOM_SCALE := 15 # 100; DEAD_ZONE := 25 |}.

(** What [SendInput] is asked to do: [_press_middle], [_release_middle],
    [_move dx dy], [_scroll amount]. *)
Inductive action : Type :=
| Press
| Release
| Move (dx dy : Z)
| Scroll (amount : Z).

(** The instance fields set by [__init__] ([_log] and [_proc_ref] carry no
    behaviour of interest).  [_thread] is [true] once [start] has created the
    thread object; [_hwnd] is the message-only window, [None] outside the
    loop. *)
Record Listener : Type := {
  drawing_mode : bool;
  _running     : bool;
  _thread      : bool;
  _hwnd        : option Z;
  _mid_held    : bool;
  _zoom_acc    : Q
}.

Definition __init__ : Listener :=
  {| drawing_mode := false; _running := false; _thread := false;
     _hwnd := None; _mid_held := false; _zoom_acc := 0 |}.

Definition set_mid_held (b : bool) (self : Listener) : Listener :=
  {| drawing_mode := drawing_mode self; _running := _running self;
     _thread := _thread self; _hwnd := _hwnd self;
     _mid_held := b; _zoom_acc := _zoom_acc self |}.

Definition set_zoom_acc (q : Q) (self : Listener) : Listener :=
  {| drawing_mode := drawing_mode self; _running := _running self;
     _thread := _thread self; _hwnd := _hwnd self;
     _mid_held := _mid_held self; _zoom_acc := q |}.

Definition set_running (b : bool) (self : Listener) : Listener :=
  {| drawing_mode := drawing_mode self; _running := b;
     _thread := _thread self; _hwnd := _hwnd self;
     _mid_held := _mid_held self; _zoom_acc := _zoom_acc self |}.

Definition set_hwnd (h : option Z) (self : Listener) : Listener :=
  {| drawing_mode := drawing_mode self; _running := _running self;
     _thread := _thread self; _hwnd := h;
     _mid_held := _mid_held self; _zoom_acc := _zoom_acc self |}.

Definition set_thread (b : bool) (self : Listener) : Listener :=
  {| drawing_mode := drawing_mode self; _running := _running self;
     _thread := b; _hwnd := _hwnd self;
     _mid_held := _mid_held self; _zoom_acc := _zoom_acc self |}.

Definition set_drawing_mode (b : bool) (self : Listener) : Listener :=
  {| drawing_mode := b; _running := _running self;
     _thread := _thread self; _hwnd := _hwnd self;
     _mid_held := _mid_held self; _zoom_acc := _zoom_acc self |}.

(** ** The method monad: state of [self] plus emitted actions *)

Definition M (A : Type) : Type := Listener -> A * Listener * list action.

Definition ret {A : Type} (a : A) : M A := fun self => (a, self, []).

Definition bind {A B : Type} (m : M A) (k : A -> M B) : M B :=
  fun self =>
    let '(a, self1, out1) := m self in
    let '(b, self2, out2) := k a self1 in
    (b, self2, out1 ++ out2).

Declare Scope method_scope.
Delimit Scope method_scope with method.
Notation "x <- m ;; k" := (bind m (fun x => k))
  (at level 61, m at next level, right associativity) : method_scope.
Notation "m ;; k" := (bind m (fun _ => k))
  (at level 61, right associativity) : method_scope.
Local Open Scope method_scope.

Definition read {A : Type} (f : Listener -> A) : M A :=
  fun self => (f self, self, []).
Definition write (f : Listener -> Listener) : M unit :=
  fun self => (tt, f self, []).
Definition _send (a : action) : M unit :=
  fun self => (tt, self, [a]).

(** The state and the output of running a method. *)
Definition state_of {A : Type} (r : A * Listener * list action) : Listener :=
  snd (fst r).
Definition output_of {A : Type} (r : A * Listener * list action) : list action :=
  snd r.

(** ** SendInput helpers (lines 351-363) *)

Definition _press_middle : M unit :=
  _send Press ;; write (set_mid_held true).

Definition _release_middle : M unit :=
  _send Release ;; write (set_mid_held false).

Definition _move (dx dy : Z) : M unit := _send (Move dx dy).

Definition _scroll (amount : Z) : M unit := _send (Scroll amount).

(** ** Axis to mouse-event conversion (lines 312-330) *)

(** Python's [int(f)] on a float: truncation toward zero. *)
Definition int (q : Q) : Z := Z.quot (Qnum q) (Zpos (Qden q)).

(** [int(v * self.PAN_SCALE) if abs(v) >= dz else 0] (lines 314-315). *)
Definition pan (cfg : Settings) (v : Z) : Z :=
  if DEAD_ZONE cfg <=? Z.abs v then int (inject_Z v * PAN_SCALE cfg) else 0.

(** [(-y * self.ZOOM_SCALE) if abs(y) >= dz else 0.0] (line 316). *)
Definition zoom (cfg : Settings) (y : Z) : Q :=
  if DEAD_ZONE cfg <=? Z.abs y then inject_Z (- y) * ZOOM_SCALE cfg else 0.

(** [abs(acc) >= 120] and [acc > 0] as the loop tests them. *)
Definition at_least_one_tick (acc : Q) : bool := Qle_bool 120 (Qabs acc).
Definition above_zero (acc : Q) : bool := negb (Qle_bool acc 0).

(** The [while abs(self._zoom_acc) >= 120] loop (lines 327-330).  [fuel]
    bounds the number of iterations; [_apply] supplies [ticks_due], with which
    the loop always leaves through its test ([scroll_loop_leaves],
    [ticks_due_suffice]). *)
Fixpoint scroll_loop (fuel : nat) : M unit :=
  match fuel with
  | O => ret tt
  | S fuel' =>
      acc <- read _zoom_acc ;;
      if at_least_one_tick acc then
        let tick := if above_zero acc then 120 else -120 in
        _scroll tick ;;
        write (set_zoom_acc (acc - inject_Z tick)) ;;
        scroll_loop fuel'
      else ret tt
  end.

Definition ticks_due (acc : Q) : nat :=
  S (Z.to_nat (Qfloor (Qabs acc / 120))).

(** The drag block (lines 318-323). *)
Definition drag (pan_x pan_y : Z) : M unit :=
  if negb (pan_x =? 0) || negb (pan_y =? 0) then
    held <- read _mid_held ;;
    (if negb held then _press_middle else ret tt) ;;
    _move pan_x pan_y
  else
    held <- read _mid_held ;;
    if held then _release_middle else ret tt.

(** The zoom block (lines 325-330). *)
Definition wheel (zoom : Q) : M unit :=
  if negb (Qeq_bool zoom 0) then
    acc <- read _zoom_acc ;;
    write (set_zoom_acc (acc + zoom)) ;;
    scroll_loop (ticks_due (acc + zoom))
  else ret tt.

Definition _apply (cfg : Settings) (x y z : Z) : M unit :=
  let pan_x := pan cfg x in
  let pan_y := pan cfg z in
  let zoom  := zoom cfg y in
  drag pan_x pan_y ;;
  wheel zoom.

(** A stream of samples fed to the converter, one [_apply] per sample. *)
Fixpoint feed (cfg : Settings) (samples : list (Z * Z * Z)) : M unit :=
  match samples with
  | [] => ret tt
  | (x, y, z) :: rest => _apply cfg x y z ;; feed cfg rest
  end.

(** ** Raw input parsing (lines 266-306) *)

Definition WM_INPUT    : Z := 0x00FF.
Definition WM_DESTROY  : Z := 0x0002.
Definition RIM_TYPEHID : Z := 2.

(** [ctypes.sizeof(RAWINPUTHEADER)]: [dwType] and [dwSize] (4 bytes each),
    [hDevice] and [wParam] (pointer-sized; the structures are "sized for
    64-bit"). *)
Definition hdr_sz : nat := 24.

(** What the two [GetRawInputData] calls answer for the handle in [lparam]:
    the buffer of [sz.value] bytes as the second call leaves it, and the value
    that call returns. *)
Record raw_input : Type := {
  ri_buf  : list byte;
  ri_code : Z
}.

Inductive exn : Type := ValueError.

Inductive outcome (A : Type) : Type :=
| Return (a : A)
| Raise (e : exn).
Arguments Return {A} a.
Arguments Raise {A} e.

(** [b[lo : lo + n]] on [bytes]: short when [b] is. *)
Definition slice (lo n : nat) (b : list byte) : list byte :=
  firstn n (skipn lo b).

(** [struct.unpack_from] for one ['<I'] and one ['<h'] field at [off]. *)
Definition unpack_I (b : list byte) (off : nat) : Z :=
  le_combine (slice off 4 b).

Definition unpack_h (b : list byte) (off : nat) : Z :=
  let u := le_combine (slice off 2 b) in
  if u <? 32768 then u else u - 65536.

(** What the parse of one notification comes to: nothing to do, a translation
    sample handed to [_apply], or an exception on the way. *)
Inductive decoded : Type :=
| Ignore
| Translation (x y z : Z)
| Fault (e : exn).

(** Lines 299-306, on the report bytes [hid]. *)
Definition decode_report (hid : list byte) : decoded :=
  if (length hid <? 7)%nat then Ignore
  else if byte.unsigned (hd Byte.x00 hid) =? 1 then
    Translation (unpack_h hid 1) (unpack_h hid 3) (unpack_h hid 5)
  else Ignore.

(** Lines 281-298, on [buf.raw]; [RAWINPUTHEADER.from_buffer_copy] raises
    [ValueError] on a slice shorter than the structure. *)
Definition decode (buf : list byte) : decoded :=
  if (length (slice 0 hdr_sz buf) <? hdr_sz)%nat then Fault ValueError
  else
    let dwType := unpack_I buf 0 in
    if negb (dwType =? RIM_TYPEHID) then Ignore
    else
      let off := hdr_sz in
      if (length buf <? off + 8)%nat then Ignore
      else
        let dw_size_hid := unpack_I buf off in
        let dw_count := unpack_I buf (off + 4) in
        let off := (off + 8)%nat in
        if (dw_count =? 0) || (dw_size_hid <? 7) then Ignore
        else decode_report (slice off (Z.to_nat dw_size_hid) buf).

Definition _on_raw_input (cfg : Settings) (lparam : raw_input) : M (outcome unit) :=
  if (length (ri_buf lparam) =? 0)%nat then ret (Return tt)
  else if ri_code lparam =? 0xFFFFFFFF then ret (Return tt)
  else
    match decode (ri_buf lparam) with
    | Ignore => ret (Return tt)
    | Translation x y z => _apply cfg x y z ;; ret (Return tt)
    | Fault e => ret (Raise e)
    end.

(** ** Window procedure (lines 249-260) *)

Record MSG : Type := {
  message : Z;
  lParam  : raw_input
}.

(** The value handed back to the system: [0], or what [DefWindowProcW]
    answers. *)
Inductive lresult : Type := Zero | DefWindowProcW.

Definition _wnd_proc (cfg : Settings) (m : MSG) : M (outcome lresult) :=
  if message m =? WM_INPUT then
    gate <- read drawing_mode ;;
    if gate then
      r <- _on_raw_input cfg (lParam m) ;;
      match r with
      | Return _ => ret (Return Zero)
      | Raise e => ret (Raise e)
      end
    else ret (Return Zero)
  else if message m =? WM_DESTROY then ret (Return Zero)
  else ret (Return DefWindowProcW).

(** ** Thread body (lines 175-243) and [start] / [stop] (lines 147-163) *)

(** How far the set-up of [_message_loop] gets: [RegisterClassW] fails,
    [CreateWindowExW] fails, [RegisterRawInputDevices] fails on the window
    [hwnd], or all three succeed. *)
Inductive setup : Type :=
| ClassFailed
| WindowFailed
| RegistrationFailed (hwnd : Z)
| Registered (hwnd : Z).

(** One answer of [GetMessageW]: [0] ([WM_QUIT]), [-1] (error), or a message
    to dispatch. *)
Inductive get_message : Type :=
| GM_quit
| GM_error
| GM_message (m : MSG).

(** The receive loop (lines 224-230) over the successive answers of
    [GetMessageW]; [true] once the loop is left, [false] while the thread is
    still waiting for the next answer.  An exception raised inside the window
    procedure stays in the callback. *)
Fixpoint receive (cfg : Settings) (inbox : list get_message) : M bool :=
  running <- read _running ;;
  if negb running then ret true
  else
    match inbox with
    | [] => ret false
    | GM_quit :: _ => ret true
    | GM_error :: _ => ret true
    | GM_message m :: rest => _wnd_proc cfg m ;; receive cfg rest
    end.

(** After the loop (lines 232-243): the device is unregistered and the handle
    forgotten. *)
Definition leave_loop : M unit := write (set_hwnd None).

Definition _message_loop (cfg : Settings) (os : setup) (inbox : list get_message)
    : M bool :=
  match os with
  | ClassFailed => ret true
  | WindowFailed => ret true
  | RegistrationFailed hwnd => write (set_hwnd (Some hwnd)) ;; ret true
  | Registered hwnd =>
      write (set_hwnd (Some hwnd)) ;;
      left <- receive cfg inbox ;;
      if left then leave_loop ;; ret true else ret false
  end.

Definition start : M unit :=
  write (set_running true) ;; write (set_thread true).

(** What the listener thread still does between [stop] clearing [_running]
    and the join returning: it finishes the message it is dispatching or
    receives next, if any, then fails the loop test and leaves. *)
Definition wind_down (cfg : Settings) (in_flight : option MSG) : M unit :=
  match in_flight with
  | Some m => _wnd_proc cfg m ;; leave_loop
  | None => leave_loop
  end.

(** [stop], with [joined] standing for the work of the listener thread that
    [self._thread.join(timeout=3.0)] waits for; the [WM_DESTROY] posted to
    [self._hwnd] is what wakes that thread. *)
Definition stop (joined : M unit) : M unit :=
  write (set_running false) ;;
  thread <- read _thread ;;
  (if thread then joined else ret tt) ;;
  held <- read _mid_held ;;
  if held then _release_middle else ret tt.

(** ** Laying out a notification *)

(** The fields of [RAWINPUTHEADER] (lines 58-64). *)
Record RAWINPUTHEADER : Type := {
  dwType  : Z;
  dwSize  : Z;
  hDevice : Z;
  wParam  : Z
}.

Definition header_bytes (hdr : RAWINPUTHEADER) : list byte :=
  le_split 4 (dwType hdr) ++ le_split 4 (dwSize hdr) ++
  le_split 8 (hDevice hdr) ++ le_split 8 (wParam hdr).

(** The [RAWHID] layout after the header (lines 286-289): [dwSizeHid],
    [dwCount], then the report bytes [data]. *)
Definition rawhid_bytes (hdr : RAWINPUTHEADER) (dw_size_hid dw_count : Z)
    (data : list byte) : list byte :=
  header_bytes hdr ++ le_split 4 dw_size_hid ++ le_split 4 dw_count ++ data.

(** A translation report: [[id=1, X_lo, X_hi, Y_lo, Y_hi, Z_lo, Z_hi]]. *)
Definition translation_report (x y z : Z) : list byte :=
  Byte.x01 :: le_split 2 x ++ le_split 2 y ++ le_split 2 z.

Definition i16 (v : Z) : Prop := -32768 <= v < 32768.
Definition u32 (v : Z) : Prop := 0 <= v < 2 ^ 32.

(** ** Reading an emitted action list *)

(** Replays the presses and releases of [out] from the button state [held]:
    [None] as soon as a press arrives while held or a release while not held,
    otherwise the button state at the end. *)
Fixpoint alternates (held : bool) (out : list action) : option bool :=
  match out with
  | [] => Some held
  | Press :: rest => if held then None else alternates true rest
  | Release :: rest => if held then alternates false rest else None
  | _ :: rest => alternates held rest
  end.



Definition count_release (out : list action) : nat :=
  length (filter (fun a => match a with Release => true | _ => false end) out).

(** Presses not yet matched by a release: presses minus releases. *)
Fixpoint unmatched (out : list action) : Z :=
  match out with
  | [] => 0
  | Press :: rest => 1 + unmatched rest
  | Release :: rest => -1 + unmatched rest
  | _ :: rest => unmatched rest
  end.




(** ** Sample notifications and listeners *)

Definition hid_header (size : Z) : RAWINPUTHEADER :=
  {| dwType := RIM_TYPEHID; dwSize := size; hDevice := 0; wParam := 0 |}.

(** One translation report [(100, 0, 0)], laid out in full. *)
Definition pan_notification : raw_input :=
  {| ri_buf := rawhid_bytes (hid_header 39) 7 1 (translation_report 100 0 0);
     ri_code := 39 |}.


(** A started listener with the drawing workspace active. *)
Definition drawing : Listener := set_drawing_mode true (state_of (start __init__)).

(** The same, with the middle button held by an earlier pan. *)
Definition dragging : Listener := set_mid_held true drawing.

(** ** The INPUT records handed to [SendInput] (lines 336-363) *)

Definition INPUT_MOUSE            : Z := 0.
Definition MOUSEEVENTF_MOVE       : Z := 0x0001.
Definition MOUSEEVENTF_MIDDLEDOWN : Z := 0x0020.
Definition MOUSEEVENTF_MIDDLEUP   : Z := 0x0040.
Definition MOUSEEVENTF_WHEEL      : Z := 0x0800.

(** A Python [int] stored in a [ctypes] integer keeps its low 32 bits:
    unsigned for [c_uint32], two's complement for [c_long] (32 bits on
    Windows). *)
Definition c_uint32 (v : Z) : Z := v mod 2 ^ 32.
Definition c_long (v : Z) : Z := (v + 2 ^ 31) mod 2 ^ 32 - 2 ^ 31.

(** [MOUSEINPUT] and [INPUT] (lines 66-84). *)
Record MOUSEINPUT : Type := {
  mi_dx          : Z;
  mi_dy          : Z;
  mi_mouseData   : Z;
  mi_dwFlags     : Z;
  mi_time        : Z;
  mi_dwExtraInfo : Z
}.

Record INPUT : Type := {
  input_type : Z;
  input_mi   : MOUSEINPUT
}.

Definition _make (flags dx dy data : Z) : INPUT :=
  {| input_type := c_uint32 INPUT_MOUSE;
     input_mi :=
       {| mi_dx := c_long dx;
          mi_dy := c_long dy;
          mi_mouseData := c_uint32 (c_uint32 data);
          mi_dwFlags := c_uint32 flags;
          mi_time := c_uint32 0;
          mi_dwExtraInfo := 0 |} |}.

(** The record each helper builds for its action (lines 351-363). *)
Definition input_of (a : action) : INPUT :=
  match a with
  | Press => _make MOUSEEVENTF_MIDDLEDOWN 0 0 0
  | Release => _make MOUSEEVENTF_MIDDLEUP 0 0 0
  | Move dx dy => _make MOUSEEVENTF_MOVE dx dy 0
  | Scroll amount => _make MOUSEEVENTF_WHEEL 0 0 amount
  end.

(** The arguments of an action fit the 32-bit fields they are stored in. *)
Definition i32 (v : Z) : Prop := - 2 ^ 31 <= v < 2 ^ 31.

Definition fits (a : action) : Prop :=
  match a with
  | Move dx dy => i32 dx /\ i32 dy
  | Scroll amount => i32 amount
  | _ => True
  end.

(** ** More readings of an action list *)

(** Replays [out] from the button state [held] and checks every move: it must
    come while the button is held and must not be the zero move. *)
Fixpoint moves_while_held (held : bool) (out : list action) : bool :=
  match out with
  | [] => true
  | Press :: rest => moves_while_held true rest
  | Release :: rest => moves_while_held false rest
  | Move dx dy :: rest =>
      held && negb ((dx =? 0) && (dy =? 0)) && moves_while_held held rest
  | Scroll _ :: rest => moves_while_held held rest
  end.

(** The tick the scroll loop takes from an accumulator [acc] (line 328). *)
Definition tick_of (acc : Q) : Z := if above_zero acc then 120 else -120.

(** ** One life of the listener *)

(** [start], the thread body over the answers [inbox] of [GetMessageW], then
    [stop]: the join finds the thread gone if it has left its loop, and
    otherwise waits while it winds down. *)
Definition session (cfg : Settings) (os : setup) (inbox : list get_message)
    (in_flight : option MSG) : M unit :=
  start ;;
  left <- _message_loop cfg os inbox ;;
  stop (if left then ret tt else wind_down cfg in_flight).

(** ** The add-in around the listener ([SpaceMouseDrawingMode.py]) *)

Module AddIn.

(** A settings dictionary: the three keys of [DEFAULT_SETTINGS], each with a
    float (lines 40-44). *)
Record settings : Type := {
  d_PAN_SCALE  : Q;
  d_ZOOM_SCALE : Q;
  d_DEAD_ZONE  : Q
}.

Definition DEFAULT_SETTINGS : settings :=
  {| d_PAN_SCALE := 8 # 100; d_ZOOM_SCALE := 15 # 100; d_DEAD_ZONE := 25 |}.

(** What [float(saved[key])] comes to for a value found in the file: a
    number, or an exception. *)
Inductive json_value : Type :=
| Number (q : Q)
| NotNumber.

(** The object read from [settings.json], looked at under the three keys;
    [None] is a key that is not there. *)
Record saved : Type := {
  s_PAN_SCALE  : option json_value;
  s_ZOOM_SCALE : option json_value;
  s_DEAD_ZONE  : option json_value
}.

(** The file itself: absent, present but not readable as an object, or
    holding one. *)
Inductive settings_file : Type :=
| Missing
| Unreadable
| Holds (obj : saved).

(** One round of the loop of [load_settings] (lines 64-66): the value to keep
    for a key, or [None] when [float] raises. *)
Definition load_key (found : option json_value) (current : Q) : option Q :=
  match found with
  | None => Some current
  | Some (Number q) => Some q
  | Some NotNumber => None
  end.

(** [load_settings] (lines 57-69): the keys are visited in the order of
    [DEFAULT_SETTINGS]; any exception ends the function with what has been
    set so far. *)
Definition load_settings (file : settings_file) : settings :=
  let d0 := DEFAULT_SETTINGS in
  match file with
  | Missing => d0
  | Unreadable => d0
  | Holds obj =>
      match load_key (s_PAN_SCALE obj) (d_PAN_SCALE d0) with
      | None => d0
      | Some p =>
          let d1 := {| d_PAN_SCALE := p; d_ZOOM_SCALE := d_ZOOM_SCALE d0;
                       d_DEAD_ZONE := d_DEAD_ZONE d0 |} in
          match load_key (s_ZOOM_SCALE obj) (d_ZOOM_SCALE d1) with
          | None => d1
          | Some z =>
              let d2 := {| d_PAN_SCALE := p; d_ZOOM_SCALE := z;
                           d_DEAD_ZONE := d_DEAD_ZONE d1 |} in
              match load_key (s_DEAD_ZONE obj) (d_DEAD_ZONE d2) with
              | None => d2
              | Some dz =>
                  {| d_PAN_SCALE := p; d_ZOOM_SCALE := z; d_DEAD_ZONE := dz |}
              end
          end
      end
  end.

(** [save_settings] (lines 72-80): the file afterwards. *)
Definition save_settings (pan_scale zoom_scale dead_zone : Q) : settings_file :=
  Holds {| s_PAN_SCALE := Some (Number pan_scale);
           s_ZOOM_SCALE := Some (Number zoom_scale);
           s_DEAD_ZONE := Some (Number dead_zone) |}.

(** [apply_settings] (lines 83-87): the class attributes of
    [SpaceMouseListener] afterwards. *)
Definition apply_settings (d : settings) : Settings :=
  {| PAN_SCALE := d_PAN_SCALE d;
     ZOOM_SCALE := d_ZOOM_SCALE d;
     DEAD_ZONE := int (d_DEAD_ZONE d) |}.

(** How [SMSettingsCommandExecuteHandler.notify] ends (lines 164-209): the
    "valid numbers" box, the "must be > 0" box, the "saved" box, or the
    exception handler when the file cannot be written. *)
Inductive dialog : Type :=
| InvalidNumbers
| OutOfRange
| SettingsSaved
| ErrorLogged.

(** The handler, given what [float] makes of the three text fields ([None]
    for a [ValueError]) and whether [settings.json] can be opened for
    writing; it returns the class attributes and the file afterwards. *)
Definition execute (pan_scale zoom_scale dead_zone : option Q) (writable : bool)
    (cfg : Settings) (file : settings_file) : Settings * settings_file * dialog :=
  match pan_scale, zoom_scale, dead_zone with
  | Some p, Some z, Some d =>
      if Qle_bool p 0 || Qle_bool z 0 || negb (Qle_bool 0 d)
      then (cfg, file, OutOfRange)
      else if writable
      then (apply_settings {| d_PAN_SCALE := p; d_ZOOM_SCALE := z; d_DEAD_ZONE := d |},
            save_settings p z d, SettingsSaved)
      else (cfg, file, ErrorLogged)
  | _, _, _ => (cfg, file, InvalidNumbers)
  end.

Definition DRAWING_WORKSPACE : string := "FusionDocumentationEnvironment".

(** [WorkspaceActivatedHandler.notify] (lines 98-107) on the module-level
    [listener]. *)
Definition workspace_activated (ws_id : string) (listener : option Listener)
    : option Listener :=
  let is_drawing := String.eqb ws_id DRAWING_WORKSPACE in
  match listener with
  | Some l => Some (set_drawing_mode is_drawing l)
  | None => None
  end.

(** [run] (lines 216-250), up to the listener: the settings of the file are
    applied, a listener is created and started, and [drawing_mode] is set
    from the workspace active at that moment, if there is one. *)
Definition run (file : settings_file) (active_ws : option string)
    : Settings * option Listener :=
  let cfg := apply_settings (load_settings file) in
  let l := state_of (start __init__) in
  let l := match active_ws with
           | Some ws_id => set_drawing_mode (String.eqb ws_id DRAWING_WORKSPACE) l
           | None => l
           end in
  (cfg, Some l).

End AddIn.

(** ** The measuring add-in ([MENSEKI_Addin.py]) *)

Module Menseki.

(** The command classes imported from the modules of the add-in. *)
Inductive command_class : Type := total_length | total_area | total_volume.

(** A command definition (lines 25-33). *)
Record cmd : Type := {
  cmd_name         : string;
  cmd_description  : string;
  cmd_id           : string;
  cmd_resources    : string;
  workspace        : string;
  toolbar_panel_id : string;
  class            : command_class
}.

(** The module-level lists; a command object is known by the definition it
    was built from. *)
Record module_state : Type := {
  command_definitions : list cmd;
  commands            : list cmd
}.

Definition fresh : module_state :=
  {| command_definitions := []; commands := [] |}.

(** The calls made on the command objects. *)
Inductive call : Type :=
| on_run (c : cmd)
| on_stop (c : cmd).

Definition Length : cmd :=
  {| cmd_name := "Length";
     cmd_description := "Total length of selected edges";
     cmd_id := "total_length_id";
     cmd_resources := "./resources/total_length";
     workspace := "FusionSolidEnvironment";
     toolbar_panel_id := "InspectPanel";
     class := total_length |}.

Definition Area : cmd :=
  {| cmd_name := "Area";
     cmd_description := "Total area of selected faces";
     cmd_id := "total_area_id";
     cmd_resources := "./resources/total_area";
     workspace := "FusionSolidEnvironment";
     toolbar_panel_id := "InspectPanel";
     class := total_area |}.

Definition Volume : cmd :=
  {| cmd_name := "Volume";
     cmd_description := "Total volume of selected bodies";
     cmd_id := "total_volume_id";
     cmd_resources := "./resources/total_volume";
     workspace := "FusionSolidEnvironment";
     toolbar_panel_id := "InspectPanel";
     class := total_volume |}.

(** The loop of lines 61-66 over the definitions still to visit: each one is
    turned into a command and appended to [commands], and then [on_run] is
    called on every command of the list so far. *)
Fixpoint register (defs : list cmd) (commands : list cmd) : list cmd * list call :=
  match defs with
  | [] => (commands, [])
  | cmd_def :: rest =>
      let commands := commands ++ [cmd_def] in
      let calls := map on_run commands in
      let (commands', calls') := register rest commands in
      (commands', calls ++ calls')
  end.

(** [run] (lines 22-66). *)
Definition run (st : module_state) : module_state * list call :=
  let defs := command_definitions st ++ [Length; Area; Volume] in
  let (commands', calls) := register defs (commands st) in
  ({| command_definitions := defs; commands := commands' |}, calls).

(** [stop] (lines 69-71). *)
Definition stop (st : module_state) : module_state * list call :=
  (st, map on_stop (commands st)).

(** How often [on_run] is called on the command [c]. *)
Definition runs_of (c : cmd) (calls : list call) : nat :=
  length (filter (fun k => match k with
                           | on_run c' => String.eqb (cmd_id c') (cmd_id c)
                           | on_stop _ => false
                           end) calls).

End Menseki.

(** * Properties *)

(** ** Running a method *)

Lemma state_of_bind {A B : Type} (m : M A) (k : A -> M B) (self : Listener) :
  state_of (bind m k self) = state_of (k (fst (fst (m self))) (state_of (m self))).
Proof.
  unfold bind, state_of. destruct (m self) as [[a s1] o1]. simpl.
  destruct (k a s1) as [[b s2] o2]. reflexivity.
Qed.

Lemma output_of_bind {A B : Type} (m : M A) (k : A -> M B) (self : Listener) :
  output_of (bind m k self) =
  output_of (m self) ++ output_of (k (fst (fst (m self))) (state_of (m self))).
Proof.
  unfold bind, state_of, output_of. destruct (m self) as [[a s1] o1]. simpl.
  destruct (k a s1) as [[b s2] o2]. reflexivity.
Qed.

Lemma state_of_mk {A : Type} (a : A) (self : Listener) (out : list action) :
  state_of (a, self, out) = self.
Proof. reflexivity. Qed.

Lemma output_of_mk {A : Type} (a : A) (self : Listener) (out : list action) :
  output_of (a, self, out) = out.
Proof. reflexivity. Qed.

Lemma alternates_app (held : bool) (out1 out2 : list action) :
  alternates held (out1 ++ out2) =
  match alternates held out1 with
  | Some held' => alternates held' out2
  | None => None
  end.
Proof.
  revert held. induction out1 as [|a out1 IH]; intros held; simpl.
  - reflexivity.
  - destruct a, held; auto.
Qed.


(** ** The scroll loop *)

Lemma at_least_one_tick_true (acc : Q) :
  at_least_one_tick acc = true <-> (120 <= Qabs acc)%Q.
Proof. unfold at_least_one_tick. apply Qle_bool_iff. Qed.

Lemma at_least_one_tick_false (acc : Q) :
  at_least_one_tick acc = false <-> (Qabs acc < 120)%Q.
Proof.
  unfold at_least_one_tick. split; intros H.
  - apply Qnot_le_lt. intros H1. apply Qle_bool_iff in H1. congruence.
  - destruct (Qle_bool 120 (Qabs acc)) eqn:E; [|reflexivity].
    apply Qle_bool_iff in E. lra.
Qed.

Lemma above_zero_true (acc : Q) : above_zero acc = true <-> (0 < acc)%Q.
Proof.
  unfold above_zero. split; intros H.
  - apply Qnot_le_lt. intros H1. apply Qle_bool_iff in H1.
    rewrite H1 in H. discriminate.
  - destruct (Qle_bool acc 0) eqn:E; [|reflexivity].
    apply Qle_bool_iff in E. lra.
Qed.

Lemma above_zero_false (acc : Q) : above_zero acc = false <-> (acc <= 0)%Q.
Proof.
  unfold above_zero. rewrite negb_false_iff. apply Qle_bool_iff.
Qed.

Lemma scroll_loop_unfold (fuel : nat) (self : Listener) :
  scroll_loop (S fuel) self =
  if at_least_one_tick (_zoom_acc self) then
    let tick := if above_zero (_zoom_acc self) then 120 else -120 in
    let r := scroll_loop fuel (set_zoom_acc (_zoom_acc self - inject_Z tick) self) in
    (tt, state_of r, Scroll tick :: output_of r)
  else (tt, self, []).
Proof.
  simpl. unfold bind at 1. unfold read at 1. 
  destruct (at_least_one_tick (_zoom_acc self)); [|reflexivity].
  unfold bind, _scroll, _send, write, state_of, output_of. simpl.
  destruct (scroll_loop fuel _) as [[[] s] o]. reflexivity.
Qed.

#[local] Arguments scroll_loop : simpl never.
#[local] Arguments ticks_due : simpl never.

Lemma set_zoom_acc_same (self : Listener) :
  set_zoom_acc (_zoom_acc self) self = self.
Proof. destruct self; reflexivity. Qed.

Lemma set_zoom_acc_twice (p q : Q) (self : Listener) :
  set_zoom_acc p (set_zoom_acc q self) = set_zoom_acc p self.
Proof. reflexivity. Qed.

(** The loop touches no field but the accumulator. *)
Lemma scroll_loop_frame (fuel : nat) (self : Listener) :
  state_of (scroll_loop fuel self) =
  set_zoom_acc (_zoom_acc (state_of (scroll_loop fuel self))) self.
Proof.
  revert self. induction fuel as [|fuel IH]; intros self.
  - simpl. symmetry. apply set_zoom_acc_same.
  - rewrite scroll_loop_unfold.
    destruct (at_least_one_tick (_zoom_acc self)).
    + cbv zeta. rewrite !state_of_mk. rewrite IH at 1.
      apply set_zoom_acc_twice.
    + simpl. symmetry. apply set_zoom_acc_same.
Qed.

(** It emits scroll actions only, so it never disturbs the button. *)
Lemma scroll_loop_alternates (fuel : nat) (self : Listener) (held : bool) :
  alternates held (output_of (scroll_loop fuel self)) = Some held.
Proof.
  revert self. induction fuel as [|fuel IH]; intros self.
  - reflexivity.
  - rewrite scroll_loop_unfold.
    destruct (at_least_one_tick (_zoom_acc self)); [|reflexivity].
    cbv zeta. rewrite output_of_mk. simpl. apply IH.
Qed.



(** One pass of the loop body brings the accumulator one tick closer to
    zero. *)
Lemma tick_taken (acc : Q) (fuel : nat) :
  at_least_one_tick acc = true ->
  (Qabs acc < 120 * inject_Z (Z.of_nat (S fuel)))%Q ->
  (Qabs (acc - inject_Z (if above_zero acc then 120 else -120))
   < 120 * inject_Z (Z.of_nat fuel))%Q.
Proof.
  intros Etick Hlt. apply at_least_one_tick_true in Etick.
  rewrite Nat2Z.inj_succ, <- Z.add_1_r, inject_Z_plus in Hlt.
  change (inject_Z 1) with 1%Q in Hlt.
  destruct (above_zero acc) eqn:Epos.
  - apply above_zero_true in Epos. change (inject_Z 120) with 120%Q.
    pose proof (Qabs_pos acc) as E1.
    pose proof (Qabs_pos (acc - 120)) as E2.
    assert (0 <= acc)%Q as H0 by lra. specialize (E1 H0). clear H0.
    assert (0 <= acc - 120)%Q as H0 by lra. specialize (E2 H0). lra.
  - apply above_zero_false in Epos. change (inject_Z (-120)) with (-120)%Q.
    pose proof (Qabs_neg acc Epos) as E1.
    pose proof (Qabs_neg (acc - -120)) as E2.
    assert (acc - -120 <= 0)%Q as H0 by lra. specialize (E2 H0). lra.
Qed.


(** ... and allowing more iterations changes nothing. *)
Lemma scroll_loop_more_fuel (fuel extra : nat) (self : Listener) :
  (Qabs (_zoom_acc self) < 120 * inject_Z (Z.of_nat fuel))%Q ->
  scroll_loop (fuel + extra) self = scroll_loop fuel self.
Proof.
  revert self. induction fuel as [|fuel IH]; intros self Hlt.
  - change (inject_Z (Z.of_nat 0)) with 0%Q in Hlt.
    pose proof (Qabs_nonneg (_zoom_acc self)). lra.
  - cbn [Nat.add]. rewrite !scroll_loop_unfold.
    destruct (at_least_one_tick (_zoom_acc self)) eqn:Etick; [|reflexivity].
    cbv zeta. rewrite IH; [reflexivity|].
    cbn [_zoom_acc set_zoom_acc]. apply tick_taken; assumption.
Qed.

Lemma ticks_due_enough (acc : Q) :
  (Qabs acc < 120 * inject_Z (Z.of_nat (ticks_due acc)))%Q.
Proof.
  unfold ticks_due.
  rewrite Nat2Z.inj_succ, <- Z.add_1_r, Z2Nat.id.
  - pose proof (Qlt_floor (Qabs acc / 120)) as H.
    assert (Hdiv : (Qabs acc == 120 * (Qabs acc / 120))%Q) by (field).
    lra.
  - change 0 with (Qfloor 0). apply Qfloor_resp_le.
    apply Qle_shift_div_l; [reflexivity|]. pose proof (Qabs_nonneg acc). lra.
Qed.

(** So [ticks_due] iterations are all the loop can use: the embedding never
    cuts it short. *)
Lemma ticks_due_suffice (extra : nat) (self : Listener) :
  scroll_loop (ticks_due (_zoom_acc self) + extra) self =
  scroll_loop (ticks_due (_zoom_acc self)) self.
Proof. apply scroll_loop_more_fuel, ticks_due_enough. Qed.

(** ** The drag and zoom blocks of [_apply] *)

Lemma drag_run (pan_x pan_y : Z) (self : Listener) :
  drag pan_x pan_y self =
  if (pan_x =? 0) && (pan_y =? 0) then
    if _mid_held self then (tt, set_mid_held false self, [Release])
    else (tt, self, [])
  else
    if _mid_held self then (tt, self, [Move pan_x pan_y])
    else (tt, set_mid_held true self, [Press; Move pan_x pan_y]).
Proof.
  unfold drag.
  destruct (pan_x =? 0), (pan_y =? 0); simpl;
    unfold bind, read; destruct (_mid_held self); reflexivity.
Qed.

Lemma drag_alternates (pan_x pan_y : Z) (self : Listener) :
  alternates (_mid_held self) (output_of (drag pan_x pan_y self)) =
  Some (_mid_held (state_of (drag pan_x pan_y self))).
Proof.
  rewrite drag_run.
  destruct ((pan_x =? 0) && (pan_y =? 0)), (_mid_held self) eqn:E;
    unfold state_of, output_of; simpl; rewrite ?E; reflexivity.
Qed.

Lemma drag_zoom_acc (pan_x pan_y : Z) (self : Listener) :
  _zoom_acc (state_of (drag pan_x pan_y self)) = _zoom_acc self.
Proof.
  rewrite drag_run.
  destruct ((pan_x =? 0) && (pan_y =? 0)), (_mid_held self); reflexivity.
Qed.


Lemma wheel_run (zoom : Q) (self : Listener) :
  wheel zoom self =
  if Qeq_bool zoom 0 then (tt, self, [])
  else
    let r := scroll_loop (ticks_due (_zoom_acc self + zoom))
               (set_zoom_acc (_zoom_acc self + zoom) self) in
    (tt, state_of r, output_of r).
Proof.
  unfold wheel. destruct (Qeq_bool zoom 0); simpl; [reflexivity|].
  unfold bind, read, write, state_of, output_of. simpl.
  destruct (scroll_loop _ _) as [[[] s] o]. reflexivity.
Qed.

Lemma wheel_frame (zoom : Q) (self : Listener) :
  state_of (wheel zoom self) =
  set_zoom_acc (_zoom_acc (state_of (wheel zoom self))) self.
Proof.
  rewrite wheel_run. destruct (Qeq_bool zoom 0).
  - rewrite state_of_mk. symmetry. apply set_zoom_acc_same.
  - cbv zeta. rewrite state_of_mk. rewrite scroll_loop_frame at 1.
    apply set_zoom_acc_twice.
Qed.

Lemma wheel_held (zoom : Q) (self : Listener) :
  _mid_held (state_of (wheel zoom self)) = _mid_held self.
Proof. rewrite wheel_frame. reflexivity. Qed.

Lemma wheel_alternates (zoom : Q) (self : Listener) (held : bool) :
  alternates held (output_of (wheel zoom self)) = Some held.
Proof.
  rewrite wheel_run. destruct (Qeq_bool zoom 0); [reflexivity|].
  cbv zeta. rewrite output_of_mk. apply scroll_loop_alternates.
Qed.



(** ** One step of the converter, and a stream of samples *)

Section Converter.

Variable cfg : Settings.

Lemma _apply_run (x y z : Z) (self : Listener) :
  _apply cfg x y z self =
  let r1 := drag (pan cfg x) (pan cfg z) self in
  let r2 := wheel (zoom cfg y) (state_of r1) in
  (tt, state_of r2, output_of r1 ++ output_of r2).
Proof.
  unfold _apply, bind, state_of, output_of. cbv zeta.
  destruct (drag _ _ self) as [[[] s1] o1]. simpl.
  destruct (wheel _ s1) as [[[] s2] o2]. reflexivity.
Qed.

Lemma _apply_alternates (x y z : Z) (self : Listener) :
  alternates (_mid_held self) (output_of (_apply cfg x y z self)) =
  Some (_mid_held (state_of (_apply cfg x y z self))).
Proof.
  rewrite _apply_run. cbv zeta. rewrite state_of_mk, output_of_mk.
  rewrite alternates_app, drag_alternates, wheel_alternates, wheel_held.
  reflexivity.
Qed.



Lemma feed_cons (x y z : Z) (rest : list (Z * Z * Z))
    (self : Listener) :
  feed cfg ((x, y, z) :: rest) self =
  let r1 := _apply cfg x y z self in
  let r2 := feed cfg rest (state_of r1) in
  (tt, state_of r2, output_of r1 ++ output_of r2).
Proof.
  simpl. unfold bind, state_of, output_of.
  destruct (_apply cfg x y z self) as [[[] s1] o1]. simpl.
  destruct (feed cfg rest s1) as [[[] s2] o2]. reflexivity.
Qed.



Lemma feed_alternates (samples : list (Z * Z * Z)) (self : Listener) :
  alternates (_mid_held self) (output_of (feed cfg samples self)) =
  Some (_mid_held (state_of (feed cfg samples self))).
Proof.
  revert self. induction samples as [|[[x y] z] rest IH]; intros self.
  - reflexivity.
  - rewrite feed_cons. cbv zeta. rewrite state_of_mk, output_of_mk.
    rewrite alternates_app, _apply_alternates. apply IH.
Qed.

End Converter.

(** ** Truncation, and what the action list says about the button *)


Lemma pan_quot (cfg : Settings) (v : Z) :
  pan cfg v =
  if DEAD_ZONE cfg <=? Z.abs v
  then (v * Qnum (PAN_SCALE cfg)) ÷ Z.pos (Qden (PAN_SCALE cfg))
  else 0.
Proof. reflexivity. Qed.

Lemma unmatched_app (out1 out2 : list action) :
  unmatched (out1 ++ out2) = unmatched out1 + unmatched out2.
Proof.
  induction out1 as [|a out1 IH]; cbn [app unmatched]; [reflexivity|].
  destruct a; rewrite ?IH; lia.
Qed.

Lemma alternates_unmatched (held held' : bool) (out : list action) :
  alternates held out = Some held' ->
  Z.b2z held + unmatched out = Z.b2z held'.
Proof.
  revert held. induction out as [|a out IH]; intros held H; simpl in H.
  - injection H as <-. cbn [unmatched]. lia.
  - destruct a, held; try discriminate; apply IH in H;
      cbn [unmatched Z.b2z] in *; lia.
Qed.

Lemma alternates_prefix (held held' : bool) (pre post : list action) :
  alternates held (pre ++ post) = Some held' ->
  exists mid, alternates held pre = Some mid /\ alternates mid post = Some held'.
Proof.
  rewrite alternates_app. destruct (alternates held pre) as [mid|].
  - intros H. exists mid. split; [reflexivity | exact H].
  - discriminate.
Qed.

Lemma alternates_at_press (held' : bool) (pre post : list action) :
  alternates false (pre ++ Press :: post) = Some held' -> unmatched pre = 0.
Proof.
  intros H. apply alternates_prefix in H as (mid & Hpre & Hpost).
  apply alternates_unmatched in Hpre. simpl in Hpost.
  destruct mid; [discriminate|]. simpl in Hpre. lia.
Qed.

Lemma alternates_at_release (held' : bool) (pre post : list action) :
  alternates false (pre ++ Release :: post) = Some held' -> unmatched pre = 1.
Proof.
  intros H. apply alternates_prefix in H as (mid & Hpre & Hpost).
  apply alternates_unmatched in Hpre. simpl in Hpost.
  destruct mid; [|discriminate]. simpl in Hpre. lia.
Qed.

(** ** Byte fields *)

Lemma slice_at (pre x post : list byte) (lo n : nat) :
  length pre = lo -> length x = n -> slice lo n (pre ++ x ++ post) = x.
Proof.
  intros <- <-. unfold slice.
  rewrite skipn_app, skipn_all, Nat.sub_diag. cbn [app skipn].
  rewrite firstn_app, firstn_all, Nat.sub_diag. cbn [firstn]. apply app_nil_r.
Qed.

Lemma unpack_I_at (pre post : list byte) (v : Z) (off : nat) :
  length pre = off -> u32 v -> unpack_I (pre ++ le_split 4 v ++ post) off = v.
Proof.
  intros Hoff Hv. unfold unpack_I.
  rewrite (slice_at pre (le_split 4 v) post off 4 Hoff (length_le_split 4 v)).
  rewrite le_combine_split. apply Z.mod_small. exact Hv.
Qed.

Lemma unpack_h_at (pre post : list byte) (v : Z) (off : nat) :
  length pre = off -> i16 v -> unpack_h (pre ++ le_split 2 v ++ post) off = v.
Proof.
  intros Hoff Hv. unfold unpack_h, i16 in *.
  rewrite (slice_at pre (le_split 2 v) post off 2 Hoff (length_le_split 2 v)).
  rewrite le_combine_split. change (2 ^ (Z.of_nat 2 * 8)) with 65536.
  destruct (v mod 65536 <? 32768) eqn:E;
    [apply Z.ltb_lt in E | apply Z.ltb_ge in E];
    Z.to_euclidean_division_equations; lia.
Qed.

Lemma unpack_h_range (b : list byte) (off : nat) : i16 (unpack_h b off).
Proof.
  unfold unpack_h, i16.
  pose proof (le_combine_bound (slice off 2 b)) as Hb.
  assert (Hlen : (length (slice off 2 b) <= 2)%nat)
    by (unfold slice; apply firstn_le_length).
  assert (Hpow : 2 ^ (8 * Z.of_nat (length (slice off 2 b))) <= 2 ^ 16)
    by (apply Z.pow_le_mono_r; lia).
  change (2 ^ 16) with 65536 in Hpow.
  destruct (le_combine (slice off 2 b) <? 32768) eqn:E;
    [apply Z.ltb_lt in E | apply Z.ltb_ge in E]; lia.
Qed.

Lemma unpack_h_bytes (b : list byte) (off : nat) :
  length (slice off 2 b) = 2%nat ->
  le_split 2 (unpack_h b off) = slice off 2 b.
Proof.
  intros Hlen. unfold unpack_h.
  transitivity (le_split 2 (le_combine (slice off 2 b)));
    [|apply split_le_combine'; exact Hlen].
  destruct (le_combine (slice off 2 b) <? 32768); [reflexivity|].
  rewrite le_split_mod. rewrite (le_split_mod (le_combine _)).
  f_equal. change (2 ^ (Z.of_nat 2 * 8)) with 65536.
  rewrite <- (Z.mod_add (le_combine _ - 65536) 1 65536) by lia.
  f_equal. lia.
Qed.

Lemma length_header_bytes (hdr : RAWINPUTHEADER) : length (header_bytes hdr) = hdr_sz.
Proof. unfold header_bytes. rewrite !length_app, !length_le_split. reflexivity. Qed.

Lemma length_rawhid_bytes (hdr : RAWINPUTHEADER) (n c : Z) (data : list byte) :
  length (rawhid_bytes hdr n c data) = (hdr_sz + 8 + length data)%nat.
Proof.
  unfold rawhid_bytes.
  rewrite !length_app, !length_le_split, length_header_bytes. lia.
Qed.

(** ** The decoder on a laid-out notification *)

Lemma decode_rawhid_bytes (hdr : RAWINPUTHEADER) (n c : Z) (data : list byte) :
  u32 (dwType hdr) -> u32 n -> u32 c ->
  decode (rawhid_bytes hdr n c data) =
  if negb (dwType hdr =? RIM_TYPEHID) then Ignore
  else if (c =? 0) || (n <? 7) then Ignore
  else decode_report (firstn (Z.to_nat n) data).
Proof.
  intros Ht Hn Hc. unfold decode.
  assert (E0 : unpack_I (rawhid_bytes hdr n c data) 0 = dwType hdr).
  { unfold rawhid_bytes, header_bytes. rewrite <- app_assoc.
    apply (unpack_I_at [] _ (dwType hdr) 0 eq_refl Ht). }
  assert (E1 : unpack_I (rawhid_bytes hdr n c data) hdr_sz = n).
  { unfold rawhid_bytes.
    apply (unpack_I_at (header_bytes hdr) _ n hdr_sz (length_header_bytes hdr) Hn). }
  assert (E2 : unpack_I (rawhid_bytes hdr n c data) (hdr_sz + 4) = c).
  { unfold rawhid_bytes. rewrite app_assoc.
    apply (unpack_I_at (header_bytes hdr ++ le_split 4 n) data c); [|exact Hc].
    rewrite length_app, length_le_split, length_header_bytes. reflexivity. }
  assert (E3 : slice (hdr_sz + 8) (Z.to_nat n) (rawhid_bytes hdr n c data)
               = firstn (Z.to_nat n) data).
  { unfold rawhid_bytes, slice. rewrite 2 app_assoc.
    set (pre := (header_bytes hdr ++ le_split 4 n) ++ le_split 4 c).
    assert (L : length pre = (hdr_sz + 8)%nat).
    { unfold pre. rewrite !length_app, !length_le_split, length_header_bytes.
      reflexivity. }
    rewrite <- L, skipn_app, skipn_all, Nat.sub_diag. reflexivity. }
  assert (E4 : (length (slice 0 hdr_sz (rawhid_bytes hdr n c data)) <? hdr_sz)%nat = false).
  { apply Nat.ltb_ge. unfold slice. cbn [skipn].
    rewrite length_firstn, length_rawhid_bytes. lia. }
  assert (E5 : (length (rawhid_bytes hdr n c data) <? hdr_sz + 8)%nat = false).
  { apply Nat.ltb_ge. rewrite length_rawhid_bytes. lia. }
  rewrite E4, E0, E1, E2, E5, E3. reflexivity.
Qed.

Lemma decode_report_short (hid : list byte) :
  (length hid < 7)%nat -> decode_report hid = Ignore.
Proof.
  intros H. unfold decode_report. apply Nat.ltb_lt in H. rewrite H. reflexivity.
Qed.

Lemma decode_report_other (hid : list byte) :
  byte.unsigned (hd Byte.x00 hid) <> 1 -> decode_report hid = Ignore.
Proof.
  intros H. unfold decode_report. apply Z.eqb_neq in H. rewrite H.
  destruct (length hid <? 7)%nat; reflexivity.
Qed.

Lemma decode_report_stored (hid : list byte) :
  (7 <= length hid)%nat -> byte.unsigned (hd Byte.x00 hid) = 1 ->
  decode_report hid = Translation (unpack_h hid 1) (unpack_h hid 3) (unpack_h hid 5) /\
  slice 1 6 hid =
    le_split 2 (unpack_h hid 1) ++ le_split 2 (unpack_h hid 3)
    ++ le_split 2 (unpack_h hid 5).
Proof.
  intros Hlen Hid. split.
  - unfold decode_report. apply Nat.ltb_ge in Hlen. rewrite Hlen.
    apply Z.eqb_eq in Hid. rewrite Hid. reflexivity.
  - destruct hid as [|b0 [|b1 [|b2 [|b3 [|b4 [|b5 [|b6 rest]]]]]]];
      cbn [length] in Hlen; try lia.
    rewrite !unpack_h_bytes by reflexivity. reflexivity.
Qed.

Lemma decode_translation_report (x y z : Z) (rest : list byte) :
  i16 x -> i16 y -> i16 z ->
  decode_report (translation_report x y z ++ rest) = Translation x y z.
Proof.
  intros Hx Hy Hz.
  pose proof (length_le_split 2 x) as Lx.
  pose proof (length_le_split 2 y) as Ly.
  pose proof (length_le_split 2 z) as Lz.
  unfold decode_report, translation_report.
  replace (length ((Byte.x01 :: le_split 2 x ++ le_split 2 y ++ le_split 2 z) ++ rest)
           <? 7)%nat with false
    by (symmetry; apply Nat.ltb_ge; cbn [app length]; rewrite !length_app; lia).
  cbn [app hd]. change (byte.unsigned Byte.x01 =? 1) with true. cbv iota.
  rewrite <- !app_assoc.
  f_equal.
  - apply (unpack_h_at [Byte.x01] _ x 1 eq_refl Hx).
  - change (Byte.x01 :: le_split 2 x ++ le_split 2 y ++ le_split 2 z ++ rest)
      with ([Byte.x01] ++ le_split 2 x ++ le_split 2 y ++ le_split 2 z ++ rest).
    rewrite app_assoc. apply unpack_h_at; [|exact Hy].
    rewrite length_app, Lx. reflexivity.
  - change (Byte.x01 :: le_split 2 x ++ le_split 2 y ++ le_split 2 z ++ rest)
      with ([Byte.x01] ++ le_split 2 x ++ le_split 2 y ++ le_split 2 z ++ rest).
    rewrite 2 app_assoc. apply unpack_h_at; [|exact Hz].
    rewrite !length_app, Lx, Ly. reflexivity.
Qed.

(** A buffer that holds the header but fewer than [8 + 7] bytes after it
    never reaches [_apply]. *)
Lemma decode_truncated (buf : list byte) :
  (hdr_sz <= length buf)%nat -> (length buf < hdr_sz + 8 + 7)%nat ->
  decode buf = Ignore.
Proof.
  intros Hlo Hhi. unfold decode.
  replace (length (slice 0 hdr_sz buf) <? hdr_sz)%nat with false
    by (symmetry; apply Nat.ltb_ge; unfold slice; cbn [skipn];
        rewrite length_firstn; lia).
  destruct (negb (unpack_I buf 0 =? RIM_TYPEHID)); [reflexivity|].
  destruct (length buf <? hdr_sz + 8)%nat eqn:E8; [reflexivity|].
  destruct ((unpack_I buf (hdr_sz + 4) =? 0) || (unpack_I buf hdr_sz <? 7));
    [reflexivity|].
  apply decode_report_short. unfold slice.
  rewrite length_firstn, length_skipn. lia.
Qed.

(** ** What a notification does to the listener *)

Lemma _on_raw_input_run (cfg : Settings) (lparam : raw_input) (self : Listener) :
  _on_raw_input cfg lparam self =
  if (length (ri_buf lparam) =? 0)%nat then (Return tt, self, [])
  else if ri_code lparam =? 0xFFFFFFFF then (Return tt, self, [])
  else
    match decode (ri_buf lparam) with
    | Ignore => (Return tt, self, [])
    | Translation x y z =>
        (Return tt, state_of (_apply cfg x y z self), output_of (_apply cfg x y z self))
    | Fault e => (Raise e, self, [])
    end.
Proof.
  unfold _on_raw_input.
  destruct (length (ri_buf lparam) =? 0)%nat; [reflexivity|].
  destruct (ri_code lparam =? 0xFFFFFFFF); [reflexivity|].
  destruct (decode (ri_buf lparam)); try reflexivity.
  unfold bind, ret, state_of, output_of.
  destruct (_apply cfg x y z self) as [[[] s] o]. cbn [fst snd].
  rewrite app_nil_r. reflexivity.
Qed.

Lemma _wnd_proc_run (cfg : Settings) (m : MSG) (self : Listener) :
  _wnd_proc cfg m self =
  if message m =? WM_INPUT then
    if drawing_mode self then
      let r := _on_raw_input cfg (lParam m) self in
      (match fst (fst r) with Return _ => Return Zero | Raise e => Raise e end,
       state_of r, output_of r)
    else (Return Zero, self, [])
  else if message m =? WM_DESTROY then (Return Zero, self, [])
  else (Return DefWindowProcW, self, []).
Proof.
  unfold _wnd_proc.
  destruct (message m =? WM_INPUT).
  - unfold bind at 1. unfold read. cbv beta iota.
    destruct (drawing_mode self); [|reflexivity].
    unfold bind, ret, state_of, output_of. cbv zeta.
    destruct (_on_raw_input cfg (lParam m) self) as [[[[]|e] s] o];
      cbn [fst snd app]; rewrite app_nil_r; reflexivity.
  - destruct (message m =? WM_DESTROY); reflexivity.
Qed.

(** ** Releases *)






Lemma wind_down_run (cfg : Settings) (in_flight : option MSG) (self : Listener) :
  wind_down cfg in_flight self =
  match in_flight with
  | Some m =>
      (tt, set_hwnd None (state_of (_wnd_proc cfg m self)),
       output_of (_wnd_proc cfg m self))
  | None => (tt, set_hwnd None self, [])
  end.
Proof.
  destruct in_flight as [m|]; [|reflexivity].
  unfold wind_down, bind, leave_loop, write, state_of, output_of.
  destruct (_wnd_proc cfg m self) as [[v s] o]. cbn [fst snd].
  rewrite app_nil_r. reflexivity.
Qed.


Lemma _message_loop_run (cfg : Settings) (hwnd : Z) (inbox : list get_message)
    (self : Listener) :
  _message_loop cfg (Registered hwnd) inbox self =
  let r0 := receive cfg inbox (set_hwnd (Some hwnd) self) in
  if fst (fst r0) then (true, set_hwnd None (state_of r0), output_of r0)
  else (false, state_of r0, output_of r0).
Proof.
  unfold _message_loop. unfold bind at 1. unfold write at 1.
  cbv beta iota zeta. unfold bind at 1.
  destruct (receive cfg inbox (set_hwnd (Some hwnd) self)) as [[[] s] o];
    unfold bind, leave_loop, write, ret, state_of, output_of;
    cbn [fst snd app]; rewrite ?app_nil_r; reflexivity.
Qed.

Lemma stop_run (joined : M unit) (self : Listener) :
  stop joined self =
  let self1 := set_running false self in
  let r := if _thread self1 then joined self1 else (tt, self1, []) in
  if _mid_held (state_of r)
  then (tt, set_mid_held false (state_of r), output_of r ++ [Release])
  else (tt, state_of r, output_of r).
Proof.
  unfold stop. unfold bind at 1. unfold write at 1. cbv beta iota zeta.
  unfold bind at 1. unfold read at 1. cbv beta iota.
  cbn [_thread set_running].
  unfold bind at 1.
  destruct (_thread self).
  - destruct (joined (set_running false self)) as [[[] s] o].
    rewrite state_of_mk, output_of_mk. unfold bind, read. cbv beta iota.
    destruct (_mid_held s); cbn [app]; [reflexivity|].
    unfold ret. rewrite app_nil_r. reflexivity.
  - unfold ret at 1. rewrite state_of_mk, output_of_mk.
    unfold bind, read. cbv beta iota.
    cbn [_mid_held set_running].
    destruct (_mid_held self); reflexivity.
Qed.

Lemma scroll_loop_scrolls (fuel : nat) (self : Listener) :
  exists ticks, output_of (scroll_loop fuel self) = map Scroll ticks.
Proof.
  revert self. induction fuel as [|fuel IH]; intros self.
  - exists []. reflexivity.
  - rewrite scroll_loop_unfold.
    destruct (at_least_one_tick (_zoom_acc self)); [|exists []; reflexivity].
    cbv zeta. rewrite output_of_mk.
    destruct (IH (set_zoom_acc
      (_zoom_acc self - inject_Z (if above_zero (_zoom_acc self) then 120 else -120))
      self)) as [ticks Hticks].
    exists ((if above_zero (_zoom_acc self) then 120 else -120) :: ticks).
    rewrite Hticks. reflexivity.
Qed.

Lemma wheel_scrolls (zoom : Q) (self : Listener) :
  exists ticks, output_of (wheel zoom self) = map Scroll ticks.
Proof.
  rewrite wheel_run. destruct (Qeq_bool zoom 0); [exists []; reflexivity|].
  cbv zeta. rewrite output_of_mk. apply scroll_loop_scrolls.
Qed.

(** ** The scenarios of the specification, replayed *)

Example scenario_pan :
  _apply DEFAULT_SETTINGS 100 0 0 __init__
  = (tt, set_mid_held true __init__, [Press; Move 8 0]).
Proof. reflexivity. Qed.

Example scenario_release :
  output_of (_apply DEFAULT_SETTINGS 0 0 0 (set_mid_held true __init__)) = [Release] /\
  _mid_held (state_of (_apply DEFAULT_SETTINGS 0 0 0 (set_mid_held true __init__)))
    = false.
Proof. split; reflexivity. Qed.

Example scenario_zoom :
  let sample := (0, -200, 0) in
  output_of (feed DEFAULT_SETTINGS [sample; sample; sample] __init__) = [] /\
  (_zoom_acc (state_of (feed DEFAULT_SETTINGS [sample; sample; sample] __init__))
   == 90)%Q /\
  output_of (feed DEFAULT_SETTINGS [sample; sample; sample; sample] __init__)
    = [Scroll 120] /\
  (_zoom_acc (state_of (feed DEFAULT_SETTINGS [sample; sample; sample; sample] __init__))
   == 0)%Q.
Proof. repeat split; vm_compute; reflexivity. Qed.

(** * The claims *)





(** C4.  Press/release alternation: from the not-held state, replaying the
    emitted actions never meets a press while held nor a release while not
    held; every press comes with no unmatched press before it, every release
    with exactly one, and [_mid_held] ends true exactly when a press is left
    unmatched. *)
Theorem presses_and_releases_alternate (cfg : Settings)
    (samples : list (Z * Z * Z)) (self : Listener) :
  let r := feed cfg samples (set_mid_held false self) in
  alternates false (output_of r) = Some (_mid_held (state_of r)) /\
  (forall pre post, output_of r = pre ++ Press :: post -> unmatched pre = 0) /\
  (forall pre post, output_of r = pre ++ Release :: post -> unmatched pre = 1) /\
  unmatched (output_of r) = Z.b2z (_mid_held (state_of r)).
Proof.
  cbv zeta.
  pose proof (feed_alternates cfg samples (set_mid_held false self)) as H.
  cbn [_mid_held set_mid_held] in H. repeat split.
  - exact H.
  - intros pre post E. rewrite E in H. exact (alternates_at_press _ _ _ H).
  - intros pre post E. rewrite E in H. exact (alternates_at_release _ _ _ H).
  - apply alternates_unmatched in H. exact H.
Qed.

Lemma presses_and_releases_alternate_witness : unmatched [Press; Move 8 0] = 1.
Proof.
  apply (proj1 (proj2 (proj2
    (presses_and_releases_alternate DEFAULT_SETTINGS [(100, 0, 0); (0, 0, 0)] __init__)))
    [Press; Move 8 0] []).
  reflexivity.
Defined.

(** C5.  Decoder round trip and boundary.  Report bytes of at least the
    minimum length 7 whose byte 0 is 1 decode to the three little-endian
    signed 16-bit values held in bytes 1..6; so does a whole notification
    carrying one such report; and whatever the payload, a report whose
    identifier is not 1 (the rotation report 2 among them) is ignored. *)
Theorem translation_report_round_trip :
  (forall hid : list byte,
     (7 <= length hid)%nat -> byte.unsigned (hd Byte.x00 hid) = 1 ->
     exists x y z,
       decode_report hid = Translation x y z /\
       i16 x /\ i16 y /\ i16 z /\
       firstn 7 hid = translation_report x y z) /\
  (forall (x y z : Z) (rest : list byte),
     i16 x -> i16 y -> i16 z ->
     decode_report (translation_report x y z ++ rest) = Translation x y z) /\
  (forall (hdr : RAWINPUTHEADER) (x y z : Z),
     dwType hdr = RIM_TYPEHID -> i16 x -> i16 y -> i16 z ->
     decode (rawhid_bytes hdr 7 1 (translation_report x y z)) = Translation x y z) /\
  (forall hid : list byte,
     byte.unsigned (hd Byte.x00 hid) <> 1 -> decode_report hid = Ignore) /\
  (forall (hdr : RAWINPUTHEADER) (n c : Z) (data : list byte),
     u32 (dwType hdr) -> u32 n -> u32 c ->
     byte.unsigned (hd Byte.x00 data) <> 1 ->
     decode (rawhid_bytes hdr n c data) = Ignore).
Proof.
  repeat split.
  - intros hid Hlen Hid.
    destruct (decode_report_stored hid Hlen Hid) as [Hdec Hbytes].
    exists (unpack_h hid 1), (unpack_h hid 3), (unpack_h hid 5).
    repeat split; try apply unpack_h_range; [exact Hdec|].
    unfold translation_report. rewrite <- Hbytes.
    destruct hid as [|b0 [|b1 [|b2 [|b3 [|b4 [|b5 [|b6 rest]]]]]]];
      cbn [length] in Hlen; try lia.
    cbn [hd] in Hid. change 1 with (byte.unsigned Byte.x01) in Hid.
    apply byte.unsigned_inj in Hid. subst b0. reflexivity.
  - intros x y z rest. apply decode_translation_report.
  - intros hdr x y z Ht Hx Hy Hz.
    rewrite decode_rawhid_bytes by (rewrite ?Ht; unfold u32, RIM_TYPEHID; lia).
    rewrite Ht. cbn [negb Z.eqb Z.ltb orb RIM_TYPEHID Z.compare Pos.compare
                     Pos.compare_cont Pos.eqb].
    rewrite <- (app_nil_r (translation_report x y z)) at 1.
    rewrite firstn_all2
      by (unfold translation_report; cbn [app length];
          rewrite !length_app, !length_le_split; cbn; lia).
    apply decode_translation_report; assumption.
  - intros hid. apply decode_report_other.
  - intros hdr n c data Ht Hn Hc Hid.
    rewrite decode_rawhid_bytes by assumption.
    destruct (negb (dwType hdr =? RIM_TYPEHID)); [reflexivity|].
    destruct ((c =? 0) || (n <? 7)) eqn:E; [reflexivity|].
    apply decode_report_other.
    destruct data as [|b data].
    + rewrite firstn_nil. exact Hid.
    + destruct (Z.to_nat n) eqn:En.
      * apply orb_false_iff in E as [_ E]. apply Z.ltb_ge in E. lia.
      * exact Hid.
Qed.

Lemma translation_report_round_trip_witness :
  decode_report (translation_report 100 (-200) 0) = Translation 100 (-200) 0.
Proof.
  rewrite <- (app_nil_r (translation_report 100 (-200) 0)).
  apply (proj1 (proj2 translation_report_round_trip) 100 (-200) 0 []);
    unfold i16; lia.
Defined.




(** C7, as stated, fails.  The thread receives one pan report and then
    [WM_QUIT]: it leaves the loop and returns with the button held, and no
    release is among the actions it emitted. *)
Lemma thread_exits_with_button_held :
  let r := _message_loop DEFAULT_SETTINGS (Registered 1)
             [GM_message {| message := WM_INPUT; lParam := pan_notification |};
              GM_quit] drawing in
  fst (fst r) = true /\
  _mid_held (state_of r) = true /\
  output_of r = [Press; Move 8 0] /\
  count_release (output_of r) = 0%nat.
Proof. vm_compute. repeat split; reflexivity. Qed.

(** C7, amended.  On leaving the receive loop the thread forgets its window
    handle and emits nothing: the actions of the whole thread body are those
    of the dispatched messages, and the button is left as the last dispatch
    left it, held or not. *)
Theorem loop_exit_emits_nothing (cfg : Settings) (hwnd : Z)
    (inbox : list get_message) (self : Listener) :
  let r0 := receive cfg inbox (set_hwnd (Some hwnd) self) in
  let r := _message_loop cfg (Registered hwnd) inbox self in
  leave_loop (state_of r0) = (tt, set_hwnd None (state_of r0), []) /\
  output_of r = output_of r0 /\
  _mid_held (state_of r) = _mid_held (state_of r0) /\
  (if fst (fst r0) then _hwnd (state_of r) = None
   else state_of r = state_of r0).
Proof.
  cbv zeta. split; [reflexivity|].
  rewrite _message_loop_run. cbv zeta.
  destruct (fst (fst (receive cfg inbox (set_hwnd (Some hwnd) self))));
    rewrite state_of_mk, output_of_mk; repeat split; reflexivity.
Qed.



(** C9.  Mode gate: a device report delivered while [drawing_mode] is false
    emits no action and leaves every field of the listener, [_mid_held] and
    [_zoom_acc] among them, unchanged; the window procedure answers 0 without
    looking at the report. *)
Theorem gate_closed_drops_report (cfg : Settings) (m : MSG) (self : Listener) :
  message m = WM_INPUT -> drawing_mode self = false ->
  _wnd_proc cfg m self = (Return Zero, self, []).
Proof.
  intros Hm Hgate. rewrite _wnd_proc_run, Hm, Hgate. reflexivity.
Qed.

Lemma gate_closed_drops_report_witness :
  _wnd_proc DEFAULT_SETTINGS
    {| message := WM_INPUT; lParam := pan_notification |} __init__
  = (Return Zero, __init__, []).
Proof.
  apply gate_closed_drops_report; reflexivity.
Defined.



(** * Further properties of the converter *)

(** ** The two blocks of a step are independent *)

(** The scroll loop looks at the accumulator only. *)
Lemma scroll_loop_acc_only (fuel : nat) (self other : Listener) :
  _zoom_acc self = _zoom_acc other ->
  output_of (scroll_loop fuel self) = output_of (scroll_loop fuel other) /\
  _zoom_acc (state_of (scroll_loop fuel self))
    = _zoom_acc (state_of (scroll_loop fuel other)).
Proof.
  revert self other. induction fuel as [|fuel IH]; intros self other Hacc.
  - split; [reflexivity | exact Hacc].
  - rewrite !scroll_loop_unfold, <- Hacc.
    destruct (at_least_one_tick (_zoom_acc self)).
    + cbv zeta. rewrite !state_of_mk, !output_of_mk.
      destruct (IH (set_zoom_acc
                      (_zoom_acc self
                       - inject_Z (if above_zero (_zoom_acc self) then 120 else -120))
                      self)
                   (set_zoom_acc
                      (_zoom_acc self
                       - inject_Z (if above_zero (_zoom_acc self) then 120 else -120))
                      other) eq_refl) as [Hout Hst].
      split; [f_equal; exact Hout | exact Hst].
    + split; [reflexivity | exact Hacc].
Qed.

Lemma wheel_acc_only (zoom : Q) (self other : Listener) :
  _zoom_acc self = _zoom_acc other ->
  output_of (wheel zoom self) = output_of (wheel zoom other) /\
  _zoom_acc (state_of (wheel zoom self)) = _zoom_acc (state_of (wheel zoom other)).
Proof.
  intros Hacc. rewrite !wheel_run, <- Hacc.
  destruct (Qeq_bool zoom 0).
  - split; [reflexivity | exact Hacc].
  - cbv zeta. rewrite !state_of_mk, !output_of_mk.
    apply scroll_loop_acc_only. reflexivity.
Qed.

Lemma drag_frame (pan_x pan_y : Z) (self : Listener) :
  state_of (drag pan_x pan_y self)
  = set_mid_held (_mid_held (state_of (drag pan_x pan_y self))) self.
Proof.
  rewrite drag_run.
  destruct ((pan_x =? 0) && (pan_y =? 0)), (_mid_held self) eqn:E;
    rewrite state_of_mk; try reflexivity; destruct self; simpl in *; subst;
    reflexivity.
Qed.

Lemma _apply_split (cfg : Settings) (x y z : Z) (self : Listener) :
  output_of (_apply cfg x y z self)
    = output_of (drag (pan cfg x) (pan cfg z) self)
      ++ output_of (wheel (zoom cfg y) self) /\
  state_of (_apply cfg x y z self)
    = set_zoom_acc (_zoom_acc (state_of (wheel (zoom cfg y) self)))
        (set_mid_held (_mid_held (state_of (drag (pan cfg x) (pan cfg z) self)))
           self).
Proof.
  rewrite _apply_run. cbv zeta. rewrite state_of_mk, output_of_mk.
  destruct (wheel_acc_only (zoom cfg y)
              (state_of (drag (pan cfg x) (pan cfg z) self)) self
              (drag_zoom_acc _ _ _)) as [Hout Hacc].
  split.
  - rewrite Hout. reflexivity.
  - rewrite wheel_frame, Hacc. rewrite drag_frame at 1. reflexivity.
Qed.

(** X1.  A step is the drag block and the zoom block, each run on the
    listener as the step found it: the actions are those of the one followed
    by those of the other, the button is what the drag block leaves and the
    accumulator what the zoom block leaves; nothing else changes.  So the pan
    of a sample does not depend on its y axis or on the accumulator, and its
    zoom does not depend on its x and z axes or on the button. *)
Theorem step_is_drag_and_wheel (cfg : Settings) (x y z : Z) (self : Listener) :
  output_of (_apply cfg x y z self)
    = output_of (drag (pan cfg x) (pan cfg z) self)
      ++ output_of (wheel (zoom cfg y) self) /\
  state_of (_apply cfg x y z self)
    = set_zoom_acc (_zoom_acc (state_of (wheel (zoom cfg y) self)))
        (set_mid_held (_mid_held (state_of (drag (pan cfg x) (pan cfg z) self)))
           self) /\
  (forall y' : Z,
     _mid_held (state_of (_apply cfg x y' z self))
     = _mid_held (state_of (_apply cfg x y z self))) /\
  (forall (x' z' : Z) (held : bool),
     _zoom_acc (state_of (_apply cfg x' y z' (set_mid_held held self)))
     = _zoom_acc (state_of (_apply cfg x y z self))).
Proof.
  destruct (_apply_split cfg x y z self) as [Hout Hst].
  split; [exact Hout|]. split; [exact Hst|]. split.
  - intros y'. destruct (_apply_split cfg x y' z self) as [_ ->].
    rewrite Hst. reflexivity.
  - intros x' z' held.
    destruct (_apply_split cfg x' y z' (set_mid_held held self)) as [_ ->].
    rewrite Hst. cbn [_zoom_acc set_zoom_acc].
    apply (wheel_acc_only (zoom cfg y) (set_mid_held held self) self). reflexivity.
Qed.

(** ** Under the dead zone *)

Lemma pan_under_dead_zone (cfg : Settings) (v : Z) :
  Z.abs v < DEAD_ZONE cfg -> pan cfg v = 0.
Proof.
  intros H. unfold pan. apply Z.leb_gt in H. rewrite H. reflexivity.
Qed.

Lemma zoom_under_dead_zone (cfg : Settings) (y : Z) :
  Z.abs y < DEAD_ZONE cfg -> zoom cfg y = 0%Q.
Proof.
  intros H. unfold zoom. apply Z.leb_gt in H. rewrite H. reflexivity.
Qed.

(** X2.  A sample whose three axes are all under the dead zone does nothing to a
    listener whose button is up, and only releases a button that is held: no
    move, no scroll, the accumulator untouched. *)
Theorem sample_under_dead_zone (cfg : Settings) (x y z : Z) (self : Listener) :
  Z.abs x < DEAD_ZONE cfg -> Z.abs y < DEAD_ZONE cfg -> Z.abs z < DEAD_ZONE cfg ->
  _apply cfg x y z self =
  if _mid_held self then (tt, set_mid_held false self, [Release])
  else (tt, self, []).
Proof.
  intros Hx Hy Hz. rewrite _apply_run.
  rewrite (pan_under_dead_zone cfg x Hx), (pan_under_dead_zone cfg z Hz),
          (zoom_under_dead_zone cfg y Hy).
  cbv zeta. rewrite drag_run. cbn [Z.eqb andb].
  destruct (_mid_held self); rewrite wheel_run; reflexivity.
Qed.

Lemma sample_under_dead_zone_witness :
  _apply DEFAULT_SETTINGS 24 (-24) 10 (set_mid_held true __init__)
  = (tt, set_mid_held false (set_mid_held true __init__), [Release]).
Proof.
  apply (sample_under_dead_zone DEFAULT_SETTINGS 24 (-24) 10
           (set_mid_held true __init__)); reflexivity.
Defined.

(** ** How many ticks a step scrolls *)

Lemma tick_of_step (acc : Q) :
  at_least_one_tick acc = true ->
  (Qabs (acc - inject_Z (tick_of acc)) == Qabs acc - 120)%Q /\
  ((120 <= Qabs (acc - inject_Z (tick_of acc)))%Q ->
   tick_of (acc - inject_Z (tick_of acc)) = tick_of acc).
Proof.
  intros Etick. apply at_least_one_tick_true in Etick. unfold tick_of.
  destruct (above_zero acc) eqn:Epos.
  - apply above_zero_true in Epos. change (inject_Z 120) with 120%Q.
    pose proof (Qabs_pos acc) as E1.
    assert (0 <= acc)%Q as H0 by lra. specialize (E1 H0). clear H0.
    pose proof (Qabs_pos (acc - 120)) as E2.
    assert (0 <= acc - 120)%Q as H0 by lra. specialize (E2 H0).
    split; [lra|]. intros Hbig.
    replace (above_zero (acc - 120)) with true; [reflexivity|].
    symmetry. apply above_zero_true. lra.
  - apply above_zero_false in Epos. change (inject_Z (-120)) with (-120)%Q.
    pose proof (Qabs_neg acc Epos) as E1.
    pose proof (Qabs_neg (acc - -120)) as E2.
    assert (acc - -120 <= 0)%Q as H0 by lra. specialize (E2 H0).
    split; [lra|]. intros Hbig.
    replace (above_zero (acc - -120)) with false; [reflexivity|].
    symmetry. apply above_zero_false. lra.
Qed.

Lemma scroll_loop_repeat (fuel : nat) (self : Listener) :
  (Qabs (_zoom_acc self) < 120 * inject_Z (Z.of_nat fuel))%Q ->
  exists k : nat,
    output_of (scroll_loop fuel self) = repeat (Scroll (tick_of (_zoom_acc self))) k /\
    (120 * inject_Z (Z.of_nat k) <= Qabs (_zoom_acc self))%Q /\
    (Qabs (_zoom_acc self) < 120 * inject_Z (Z.of_nat k) + 120)%Q /\
    (_zoom_acc (state_of (scroll_loop fuel self))
     == _zoom_acc self - inject_Z (tick_of (_zoom_acc self)) * inject_Z (Z.of_nat k))%Q.
Proof.
  revert self. induction fuel as [|fuel IH]; intros self Hlt.
  - change (inject_Z (Z.of_nat 0)) with 0%Q in Hlt.
    pose proof (Qabs_nonneg (_zoom_acc self)). lra.
  - rewrite scroll_loop_unfold.
    destruct (at_least_one_tick (_zoom_acc self)) eqn:Etick.
    + cbv zeta. rewrite state_of_mk, output_of_mk.
      fold (tick_of (_zoom_acc self)).
      pose proof (tick_taken _ _ Etick Hlt) as Hnext.
      fold (tick_of (_zoom_acc self)) in Hnext.
      destruct (tick_of_step _ Etick) as [Habs Hsame].
      destruct (IH (set_zoom_acc (_zoom_acc self - inject_Z (tick_of (_zoom_acc self)))
                      self) Hnext) as (k & Hout & Hlo & Hhi & Hacc).
      cbn [_zoom_acc set_zoom_acc] in Hout, Hlo, Hhi, Hacc.
      exists (S k). rewrite Nat2Z.inj_succ, <- Z.add_1_r, inject_Z_plus.
      change (inject_Z 1) with 1%Q.
      destruct k as [|k].
      * change (inject_Z (Z.of_nat 0)) with 0%Q in *.
        cbn [repeat] in Hout. rewrite Hout.
        repeat split; try reflexivity; lra.
      * assert (Hbig : (120 <= Qabs (_zoom_acc self - inject_Z (tick_of (_zoom_acc self))))%Q).
        { rewrite Nat2Z.inj_succ, <- Z.add_1_r, inject_Z_plus in Hlo.
          change (inject_Z 1) with 1%Q in Hlo.
          assert (0 <= inject_Z (Z.of_nat k))%Q
            by (change 0%Q with (inject_Z 0); rewrite <- Zle_Qle; lia).
          lra. }
        rewrite (Hsame Hbig) in Hout, Hacc. rewrite Hout.
        repeat split; try reflexivity; lra.
    + apply at_least_one_tick_false in Etick. exists 0%nat.
      rewrite state_of_mk, output_of_mk.
      change (inject_Z (Z.of_nat 0)) with 0%Q.
      pose proof (Qabs_nonneg (_zoom_acc self)).
      repeat split; try reflexivity; lra.
Qed.


Lemma _apply_ticks (cfg : Settings) (x y z : Z) (self : Listener) :
  (Qabs (_zoom_acc self) < 120)%Q ->
  exists k : nat,
    output_of (_apply cfg x y z self)
      = output_of (drag (pan cfg x) (pan cfg z) self)
        ++ repeat (Scroll (tick_of (_zoom_acc self + zoom cfg y))) k /\
    (120 * inject_Z (Z.of_nat k) <= Qabs (_zoom_acc self + zoom cfg y))%Q /\
    (Qabs (_zoom_acc self + zoom cfg y) < 120 * inject_Z (Z.of_nat k) + 120)%Q /\
    (_zoom_acc (state_of (_apply cfg x y z self))
     == _zoom_acc self + zoom cfg y
        - inject_Z (tick_of (_zoom_acc self + zoom cfg y)) * inject_Z (Z.of_nat k))%Q.
Proof.
  intros Hacc.
  destruct (_apply_split cfg x y z self) as [-> ->].
  cbn [_zoom_acc set_zoom_acc]. rewrite wheel_run.
  destruct (Qeq_bool (zoom cfg y) 0) eqn:E.
  - apply Qeq_bool_iff in E. exists 0%nat.
    rewrite state_of_mk, output_of_mk. change (inject_Z (Z.of_nat 0)) with 0%Q.
    assert (Hsum : (Qabs (_zoom_acc self + zoom cfg y) == Qabs (_zoom_acc self))%Q)
      by (apply Qabs_wd; lra).
    pose proof (Qabs_nonneg (_zoom_acc self)).
    repeat split; try reflexivity; lra.
  - cbv zeta. rewrite state_of_mk, output_of_mk.
    destruct (scroll_loop_repeat (ticks_due (_zoom_acc self + zoom cfg y))
                (set_zoom_acc (_zoom_acc self + zoom cfg y) self)
                (ticks_due_enough _)) as (k & Hout & Hlo & Hhi & Hleft).
    cbn [_zoom_acc set_zoom_acc] in Hout, Hlo, Hhi, Hleft.
    exists k. rewrite Hout. repeat split; assumption.
Qed.



(** ** Moves come while the button is held *)

Lemma moves_while_held_app (held held' : bool) (out1 out2 : list action) :
  alternates held out1 = Some held' ->
  moves_while_held held (out1 ++ out2)
  = moves_while_held held out1 && moves_while_held held' out2.
Proof.
  revert held. induction out1 as [|a out1 IH]; intros held H; simpl in H.
  - injection H as <-. reflexivity.
  - destruct a, held; try discriminate; cbn [app moves_while_held];
      rewrite ?(IH _ H); cbn [andb];
      try reflexivity; rewrite ?andb_assoc; reflexivity.
Qed.

Lemma scroll_loop_moves (fuel : nat) (self : Listener) (held : bool) :
  moves_while_held held (output_of (scroll_loop fuel self)) = true.
Proof.
  destruct (scroll_loop_scrolls fuel self) as [ticks ->].
  induction ticks as [|t ticks IH]; [reflexivity | exact IH].
Qed.

Lemma _apply_moves (cfg : Settings) (x y z : Z) (self : Listener) :
  moves_while_held (_mid_held self) (output_of (_apply cfg x y z self)) = true.
Proof.
  destruct (_apply_split cfg x y z self) as [-> _].
  rewrite (moves_while_held_app _ _ _ _ (drag_alternates _ _ self)).
  apply andb_true_iff. split.
  - rewrite drag_run.
    destruct ((pan cfg x =? 0) && (pan cfg z =? 0)) eqn:E, (_mid_held self);
      rewrite output_of_mk; cbn [moves_while_held andb]; rewrite ?E; reflexivity.
  - destruct (wheel_scrolls (zoom cfg y) self) as [ticks ->].
    generalize (_mid_held (state_of (drag (pan cfg x) (pan cfg z) self))).
    intros held. induction ticks as [|t ticks IH]; [reflexivity | exact IH].
Qed.

Lemma feed_moves (cfg : Settings) (samples : list (Z * Z * Z)) (self : Listener) :
  moves_while_held (_mid_held self) (output_of (feed cfg samples self)) = true.
Proof.
  revert self. induction samples as [|[[x y] z] rest IH]; intros self.
  - reflexivity.
  - rewrite feed_cons. cbv zeta. rewrite output_of_mk.
    rewrite (moves_while_held_app _ _ _ _ (_apply_alternates cfg x y z self)).
    rewrite _apply_moves, IH. reflexivity.
Qed.

(** X4.  Whatever the samples and the settings, every move the converter emits
    comes between a press and its release, and is never the zero move. *)
Theorem moves_are_drags (cfg : Settings) (samples : list (Z * Z * Z))
    (self : Listener) (pre post : list action) (dx dy : Z) :
  output_of (feed cfg samples (set_mid_held false self))
    = pre ++ Move dx dy :: post ->
  unmatched pre = 1 /\ (dx <> 0 \/ dy <> 0).
Proof.
  intros Hout.
  pose proof (feed_moves cfg samples (set_mid_held false self)) as Hmoves.
  pose proof (feed_alternates cfg samples (set_mid_held false self)) as Halt.
  rewrite Hout in Hmoves, Halt. cbn [_mid_held set_mid_held] in Hmoves, Halt.
  apply alternates_prefix in Halt as (mid & Hpre & _).
  rewrite (moves_while_held_app _ _ _ _ Hpre) in Hmoves.
  apply andb_true_iff in Hmoves as [_ Hmove]. cbn [moves_while_held] in Hmove.
  apply andb_true_iff in Hmove as [Hmove _].
  apply andb_true_iff in Hmove as [Hheld Hnz]. subst mid.
  apply alternates_unmatched in Hpre. cbn [Z.b2z] in Hpre.
  split; [lia|].
  apply negb_true_iff, andb_false_iff in Hnz as [Hnz|Hnz];
    apply Z.eqb_neq in Hnz; [left | right]; exact Hnz.
Qed.

Lemma moves_are_drags_witness :
  unmatched [Press] = 1 /\ (8 <> 0 \/ 0 <> 0).
Proof.
  apply (moves_are_drags DEFAULT_SETTINGS [(100, 0, 0)] __init__ [Press] []).
  reflexivity.
Defined.

(** ** Pan components *)








(** * Further properties of the decoder *)

Lemma slice_slice (lo n i m : nat) (b : list byte) :
  (i + m <= n)%nat -> slice i m (slice lo n b) = slice (lo + i) m b.
Proof.
  intros H. unfold slice.
  rewrite skipn_firstn_comm, firstn_firstn, skipn_skipn.
  rewrite Nat.min_l by lia. f_equal. f_equal. lia.
Qed.

Lemma slice_firstn (lo n m : nat) (b : list byte) :
  (lo + n <= m)%nat -> slice lo n (firstn m b) = slice lo n b.
Proof.
  intros H. unfold slice.
  rewrite skipn_firstn_comm, firstn_firstn, Nat.min_l by lia. reflexivity.
Qed.

Lemma hd_slice (lo n : nat) (b : list byte) :
  (0 < n)%nat -> hd Byte.x00 (slice lo n b) = nth lo b Byte.x00.
Proof.
  intros H. unfold slice.
  transitivity (nth 0 (firstn n (skipn lo b)) Byte.x00).
  - destruct (firstn n (skipn lo b)); reflexivity.
  - rewrite nth_firstn, nth_skipn, Nat.add_0_r.
    replace (0 <? n)%nat with true by (symmetry; apply Nat.ltb_lt, H).
    reflexivity.
Qed.

Lemma length_slice (lo n : nat) (b : list byte) :
  length (slice lo n b) = Nat.min n (length b - lo).
Proof. unfold slice. rewrite length_firstn, length_skipn. reflexivity. Qed.

(** A buffer long enough for the header, the two length fields and one
    translation report is decided by four of its fields. *)
Lemma decode_long (buf : list byte) :
  (hdr_sz + 8 + 7 <= length buf)%nat ->
  decode buf =
  if negb (unpack_I buf 0 =? RIM_TYPEHID) then Ignore
  else if (unpack_I buf (hdr_sz + 4) =? 0) || (unpack_I buf hdr_sz <? 7) then Ignore
  else if byte.unsigned (nth (hdr_sz + 8) buf Byte.x00) =? 1 then
    Translation (unpack_h buf (hdr_sz + 9)) (unpack_h buf (hdr_sz + 11))
                (unpack_h buf (hdr_sz + 13))
  else Ignore.
Proof.
  intros Hlen. unfold decode.
  replace (length (slice 0 hdr_sz buf) <? hdr_sz)%nat with false
    by (symmetry; apply Nat.ltb_ge; rewrite length_slice; lia).
  destruct (negb (unpack_I buf 0 =? RIM_TYPEHID)); [reflexivity|].
  replace (length buf <? hdr_sz + 8)%nat with false
    by (symmetry; apply Nat.ltb_ge; lia).
  destruct (unpack_I buf (hdr_sz + 4) =? 0); [reflexivity|].
  destruct (unpack_I buf hdr_sz <? 7) eqn:E7; [reflexivity|].
  apply Z.ltb_ge in E7. cbn [orb].
  assert (Hn : (7 <= Z.to_nat (unpack_I buf hdr_sz))%nat) by lia.
  unfold decode_report.
  replace (length (slice (hdr_sz + 8) (Z.to_nat (unpack_I buf hdr_sz)) buf) <? 7)%nat
    with false by (symmetry; apply Nat.ltb_ge; rewrite length_slice; lia).
  rewrite hd_slice by lia.
  unfold unpack_h. rewrite !slice_slice by lia.
  replace (hdr_sz + 8 + 1)%nat with (hdr_sz + 9)%nat by lia.
  replace (hdr_sz + 8 + 3)%nat with (hdr_sz + 11)%nat by lia.
  replace (hdr_sz + 8 + 5)%nat with (hdr_sz + 13)%nat by lia.
  reflexivity.
Qed.

Lemma decode_headless (buf : list byte) :
  (length buf < hdr_sz)%nat -> decode buf = Fault ValueError.
Proof.
  intros H. unfold decode.
  replace (length (slice 0 hdr_sz buf) <? hdr_sz)%nat with true; [reflexivity|].
  symmetry. apply Nat.ltb_lt. rewrite length_slice. lia.
Qed.

(** X7.  A notification reaches the converter exactly when it holds at least 39
    bytes, its type field is [RIM_TYPEHID], its report count is not 0, its
    report size is at least 7 and the report identifier at byte 32 is 1; the
    sample is then the three little-endian signed 16-bit values at bytes
    33..38, each within the int16 range.  A buffer shorter than the header is
    the only one on which the parse raises. *)
Theorem decode_accepts (buf : list byte) :
  (forall x y z : Z,
     decode buf = Translation x y z <->
     (hdr_sz + 8 + 7 <= length buf)%nat /\
     unpack_I buf 0 = RIM_TYPEHID /\
     unpack_I buf (hdr_sz + 4) <> 0 /\
     7 <= unpack_I buf hdr_sz /\
     byte.unsigned (nth (hdr_sz + 8) buf Byte.x00) = 1 /\
     x = unpack_h buf (hdr_sz + 9) /\
     y = unpack_h buf (hdr_sz + 11) /\
     z = unpack_h buf (hdr_sz + 13)) /\
  (forall x y z : Z, decode buf = Translation x y z -> i16 x /\ i16 y /\ i16 z) /\
  (forall e : exn, decode buf = Fault e <-> (length buf < hdr_sz)%nat).
Proof.
  destruct (Nat.lt_ge_cases (length buf) hdr_sz) as [Hshort|Hhdr].
  { rewrite (decode_headless buf Hshort). repeat split; try discriminate.
    - intros (Hlen & _). lia.
    - intros _. exact Hshort.
    - intros _. destruct e. reflexivity. }
  destruct (Nat.lt_ge_cases (length buf) (hdr_sz + 8 + 7)) as [Hcut|Hlong].
  { rewrite (decode_truncated buf Hhdr Hcut). repeat split; try discriminate.
    - intros (Hlen & _). lia.
    - intros H. lia. }
  rewrite (decode_long buf Hlong).
  assert (Hchar : forall x y z : Z,
    (if negb (unpack_I buf 0 =? RIM_TYPEHID) then Ignore
     else if (unpack_I buf (hdr_sz + 4) =? 0) || (unpack_I buf hdr_sz <? 7) then Ignore
     else if byte.unsigned (nth (hdr_sz + 8) buf Byte.x00) =? 1 then
       Translation (unpack_h buf (hdr_sz + 9)) (unpack_h buf (hdr_sz + 11))
                   (unpack_h buf (hdr_sz + 13))
     else Ignore) = Translation x y z <->
    (hdr_sz + 8 + 7 <= length buf)%nat /\
    unpack_I buf 0 = RIM_TYPEHID /\
    unpack_I buf (hdr_sz + 4) <> 0 /\
    7 <= unpack_I buf hdr_sz /\
    byte.unsigned (nth (hdr_sz + 8) buf Byte.x00) = 1 /\
    x = unpack_h buf (hdr_sz + 9) /\
    y = unpack_h buf (hdr_sz + 11) /\
    z = unpack_h buf (hdr_sz + 13)).
  { intros x y z.
    destruct (Z.eqb_spec (unpack_I buf 0) RIM_TYPEHID) as [Ht|Ht]; cbn [negb];
      [|split; [discriminate | intros (_ & H & _); contradiction]].
    destruct (Z.eqb_spec (unpack_I buf (hdr_sz + 4)) 0) as [Hc|Hc]; cbn [orb];
      [split; [discriminate | intros (_ & _ & H & _); contradiction]|].
    destruct (Z.ltb_spec (unpack_I buf hdr_sz) 7) as [Hn|Hn];
      [split; [discriminate | intros (_ & _ & _ & H & _); lia]|].
    destruct (Z.eqb_spec (byte.unsigned (nth (hdr_sz + 8) buf Byte.x00)) 1) as [Hi|Hi];
      [|split; [discriminate | intros (_ & _ & _ & _ & H & _); contradiction]].
    split.
    - intros H. injection H as <- <- <-. repeat split; assumption.
    - intros (_ & _ & _ & _ & _ & -> & -> & ->). reflexivity. }
  split; [exact Hchar|]. split.
  - intros x y z H. apply Hchar in H as (_ & _ & _ & _ & _ & -> & -> & ->).
    repeat split; apply unpack_h_range.
  - intros e. split; [|lia].
    destruct (negb _); [discriminate|]. destruct (_ || _); [discriminate|].
    destruct (_ =? 1); discriminate.
Qed.

(** X8.  The parse never reads past byte 38: whatever follows the first 39 bytes
    of a notification, more reports or anything else, has no influence. *)
Theorem decode_reads_39_bytes (buf more : list byte) :
  (hdr_sz + 8 + 7 <= length buf)%nat ->
  decode buf = decode (firstn (hdr_sz + 8 + 7) buf) /\
  decode (buf ++ more) = decode buf.
Proof.
  assert (Hfirst : forall b : list byte,
    (hdr_sz + 8 + 7 <= length b)%nat ->
    decode b = decode (firstn (hdr_sz + 8 + 7) b)).
  { intros b Hlen.
    rewrite (decode_long b Hlen).
    rewrite (decode_long (firstn (hdr_sz + 8 + 7) b))
      by (rewrite length_firstn; lia).
    unfold unpack_I, unpack_h.
    rewrite !slice_firstn by (unfold hdr_sz; lia).
    rewrite nth_firstn.
    replace (hdr_sz + 8 <? hdr_sz + 8 + 7)%nat with true
      by (symmetry; apply Nat.ltb_lt; lia).
    reflexivity. }
  intros Hlen. split; [apply Hfirst, Hlen|].
  rewrite (Hfirst (buf ++ more)) by (rewrite length_app; lia).
  rewrite (Hfirst buf Hlen).
  rewrite firstn_app.
  replace (hdr_sz + 8 + 7 - length buf)%nat with 0%nat by lia.
  cbn [firstn]. rewrite app_nil_r. reflexivity.
Qed.

Lemma decode_reads_39_bytes_witness :
  decode (ri_buf pan_notification ++ [Byte.xff; Byte.xff])
  = decode (ri_buf pan_notification).
Proof.
  apply (decode_reads_39_bytes (ri_buf pan_notification) [Byte.xff; Byte.xff]).
  unfold pan_notification. cbn [ri_buf]. rewrite length_rawhid_bytes.
  unfold translation_report. cbn [length app]. rewrite !length_app, !length_le_split.
  cbn [length]. lia.
Defined.

Lemma decode_accepts_witness : i16 100 /\ i16 0 /\ i16 0.
Proof.
  apply (proj1 (proj2 (decode_accepts (ri_buf pan_notification))) 100 0 0).
  vm_compute. reflexivity.
Defined.

(** * Further properties of the thread and of [stop] *)

Lemma _wnd_proc_effect (cfg : Settings) (m : MSG) (self : Listener) :
  (state_of (_wnd_proc cfg m self) = self /\ output_of (_wnd_proc cfg m self) = []) \/
  (drawing_mode self = true /\ message m = WM_INPUT /\
   exists x y z,
     state_of (_wnd_proc cfg m self) = state_of (_apply cfg x y z self) /\
     output_of (_wnd_proc cfg m self) = output_of (_apply cfg x y z self)).
Proof.
  rewrite _wnd_proc_run.
  destruct (Z.eqb_spec (message m) WM_INPUT) as [Hm|Hm].
  - destruct (drawing_mode self) eqn:Hgate; [|left; split; reflexivity].
    cbv zeta. rewrite state_of_mk, output_of_mk, _on_raw_input_run.
    destruct (length (ri_buf (lParam m)) =? 0)%nat; [left; split; reflexivity|].
    destruct (ri_code (lParam m) =? 0xFFFFFFFF); [left; split; reflexivity|].
    destruct (decode (ri_buf (lParam m))) as [|x y z|e];
      [left; split; reflexivity | | left; split; reflexivity].
    right. repeat split; try assumption. exists x, y, z. split; reflexivity.
  - left. destruct (message m =? WM_DESTROY); split; reflexivity.
Qed.



Lemma _wnd_proc_alternates (cfg : Settings) (m : MSG) (self : Listener) :
  alternates (_mid_held self) (output_of (_wnd_proc cfg m self))
  = Some (_mid_held (state_of (_wnd_proc cfg m self))).
Proof.
  destruct (_wnd_proc_effect cfg m self) as [[-> ->]|(_ & _ & x & y & z & -> & ->)].
  - reflexivity.
  - apply _apply_alternates.
Qed.

Lemma receive_nil (cfg : Settings) (self : Listener) :
  receive cfg [] self = (negb (_running self), self, []).
Proof.
  unfold receive, bind, read. cbv beta iota.
  destruct (_running self); reflexivity.
Qed.

Lemma receive_cons (cfg : Settings) (g : get_message) (rest : list get_message)
    (self : Listener) :
  receive cfg (g :: rest) self =
  if negb (_running self) then (true, self, [])
  else
    match g with
    | GM_message m =>
        let r1 := _wnd_proc cfg m self in
        let r2 := receive cfg rest (state_of r1) in
        (fst (fst r2), state_of r2, output_of r1 ++ output_of r2)
    | _ => (true, self, [])
    end.
Proof.
  cbn [receive]. unfold bind at 1. unfold read at 1. cbv beta iota.
  destruct (_running self); cbn [negb]; [|reflexivity].
  destruct g as [| |m]; try reflexivity.
  unfold bind, state_of, output_of.
  destruct (_wnd_proc cfg m self) as [[v s1] o1]. cbn [fst snd].
  destruct (receive cfg rest s1) as [[b s2] o2]. reflexivity.
Qed.

#[local] Arguments receive : simpl never.

(** X9.  The receive loop stops at the first answer of [GetMessageW] that is 0 or
    -1: the thread leaves the loop there, and whatever would have come after
    is never dispatched.  It dispatches nothing at all once [_running] is
    false. *)
Theorem receive_stops_at_quit (cfg : Settings) (before after : list get_message)
    (last : get_message) (self : Listener) :
  (last = GM_quit \/ last = GM_error ->
   receive cfg (before ++ last :: after) self = receive cfg (before ++ [last]) self /\
   fst (fst (receive cfg (before ++ last :: after) self)) = true) /\
  (_running self = false ->
   receive cfg (before ++ last :: after) self = (true, self, [])).
Proof.
  split.
  - intros Hlast. revert self. induction before as [|g before IH]; intros self.
    + cbn [app]. rewrite !receive_cons.
      destruct (negb (_running self)); [split; reflexivity|].
      destruct Hlast as [-> | ->]; split; reflexivity.
    + cbn [app]. rewrite !receive_cons.
      destruct (negb (_running self)); [split; reflexivity|].
      destruct g as [| |m]; try (split; reflexivity).
      cbv zeta. destruct (IH (state_of (_wnd_proc cfg m self))) as [-> Hleft].
      split; [reflexivity | exact Hleft].
  - intros Hstop. destruct before; cbn [app]; rewrite receive_cons, Hstop;
      reflexivity.
Qed.

Lemma receive_stops_at_quit_witness :
  receive DEFAULT_SETTINGS
    ([] ++ GM_quit :: [GM_message {| message := WM_INPUT; lParam := pan_notification |}])
    drawing
  = receive DEFAULT_SETTINGS ([] ++ [GM_quit]) drawing /\
  fst (fst (receive DEFAULT_SETTINGS
    ([] ++ GM_quit :: [GM_message {| message := WM_INPUT; lParam := pan_notification |}])
    drawing)) = true.
Proof.
  apply (proj1 (receive_stops_at_quit DEFAULT_SETTINGS []
                  [GM_message {| message := WM_INPUT; lParam := pan_notification |}]
                  GM_quit drawing)).
  left. reflexivity.
Defined.

Lemma receive_alternates (cfg : Settings) (inbox : list get_message) (self : Listener) :
  alternates (_mid_held self) (output_of (receive cfg inbox self))
  = Some (_mid_held (state_of (receive cfg inbox self))).
Proof.
  revert self. induction inbox as [|g rest IH]; intros self.
  - rewrite receive_nil. reflexivity.
  - rewrite receive_cons. destruct (negb (_running self)); [reflexivity|].
    destruct g as [| |m]; try reflexivity.
    cbv zeta. rewrite state_of_mk, output_of_mk.
    rewrite alternates_app, _wnd_proc_alternates. apply IH.
Qed.

Lemma receive_gate_closed (cfg : Settings) (inbox : list get_message) (self : Listener) :
  drawing_mode self = false ->
  state_of (receive cfg inbox self) = self /\ output_of (receive cfg inbox self) = [].
Proof.
  intros Hgate. induction inbox as [|g rest IH].
  - rewrite receive_nil. split; reflexivity.
  - rewrite receive_cons. destruct (negb (_running self)); [split; reflexivity|].
    destruct g as [| |m]; try (split; reflexivity).
    cbv zeta. rewrite state_of_mk, output_of_mk.
    destruct (_wnd_proc_effect cfg m self) as [[-> ->]|(Hopen & _)].
    + exact IH.
    + rewrite Hgate in Hopen. discriminate.
Qed.

Lemma _message_loop_alternates (cfg : Settings) (os : setup)
    (inbox : list get_message) (self : Listener) :
  alternates (_mid_held self) (output_of (_message_loop cfg os inbox self))
  = Some (_mid_held (state_of (_message_loop cfg os inbox self))).
Proof.
  destruct os as [| |hwnd|hwnd]; try reflexivity.
  rewrite _message_loop_run. cbv zeta.
  pose proof (receive_alternates cfg inbox (set_hwnd (Some hwnd) self)) as H.
  cbn [_mid_held set_hwnd] in H.
  destruct (fst (fst (receive cfg inbox (set_hwnd (Some hwnd) self))));
    rewrite state_of_mk, output_of_mk; exact H.
Qed.

Lemma wind_down_alternates (cfg : Settings) (in_flight : option MSG) (self : Listener) :
  alternates (_mid_held self) (output_of (wind_down cfg in_flight self))
  = Some (_mid_held (state_of (wind_down cfg in_flight self))).
Proof.
  rewrite wind_down_run. destruct in_flight as [m|].
  - rewrite state_of_mk, output_of_mk. cbn [_mid_held set_hwnd].
    apply _wnd_proc_alternates.
  - reflexivity.
Qed.

Lemma stop_alternates (joined : M unit) (self : Listener) :
  (forall s, alternates (_mid_held s) (output_of (joined s))
             = Some (_mid_held (state_of (joined s)))) ->
  alternates (_mid_held self) (output_of (stop joined self)) = Some false /\
  _mid_held (state_of (stop joined self)) = false.
Proof.
  intros Hjoined. rewrite stop_run. cbv zeta.
  assert (Hr : alternates (_mid_held self)
                 (output_of (if _thread (set_running false self)
                             then joined (set_running false self)
                             else (tt, set_running false self, [])))
               = Some (_mid_held (state_of
                         (if _thread (set_running false self)
                          then joined (set_running false self)
                          else (tt, set_running false self, []))))).
  { destruct (_thread (set_running false self)).
    - apply (Hjoined (set_running false self)).
    - reflexivity. }
  match goal with
  | |- context [if _mid_held (state_of ?t) then _ else _] => set (r := t) in *
  end.
  destruct (_mid_held (state_of r)) eqn:E; rewrite state_of_mk, output_of_mk.
  - rewrite alternates_app, Hr. split; reflexivity.
  - split; [exact Hr | exact E].
Qed.

Lemma session_run (cfg : Settings) (os : setup) (inbox : list get_message)
    (in_flight : option MSG) (self : Listener) :
  session cfg os inbox in_flight self =
  let r1 := _message_loop cfg os inbox (set_thread true (set_running true self)) in
  let r2 := stop (if fst (fst r1) then ret tt else wind_down cfg in_flight)
                 (state_of r1) in
  (tt, state_of r2, output_of r1 ++ output_of r2).
Proof.
  unfold session. unfold bind at 1. unfold start, bind at 1, write.
  cbv beta iota zeta. cbn [app]. unfold bind, state_of, output_of.
  destruct (_message_loop cfg os inbox _) as [[b s1] o1]. cbn [fst snd].
  destruct (stop _ s1) as [[[] s2] o2]. reflexivity.
Qed.

(** X10.  One life of the listener never leaves the middle button down: from a
    button that is up, through [start], whatever the thread receives and
    however far its set-up gets, and then [stop], the presses and releases
    emitted alternate and every press has its release by the time [stop]
    returns. *)
Theorem session_releases_every_press (cfg : Settings) (os : setup)
    (inbox : list get_message) (in_flight : option MSG) (self : Listener) :
  let r := session cfg os inbox in_flight (set_mid_held false self) in
  alternates false (output_of r) = Some false /\
  unmatched (output_of r) = 0 /\
  _mid_held (state_of r) = false.
Proof.
  cbv zeta. rewrite session_run. cbv zeta. rewrite state_of_mk, output_of_mk.
  pose proof (_message_loop_alternates cfg os inbox
                (set_thread true (set_running true (set_mid_held false self)))) as H1.
  cbn [_mid_held set_thread set_running set_mid_held] in H1.
  match goal with
  | |- context [stop ?j ?s] =>
      assert (H2 : alternates (_mid_held s) (output_of (stop j s)) = Some false /\
                   _mid_held (state_of (stop j s)) = false)
  end.
  { apply stop_alternates. intros s0.
    destruct (fst (fst _)); [reflexivity | apply wind_down_alternates]. }
  destruct H2 as [H2 H3].
  assert (Hall : alternates false
            (output_of (_message_loop cfg os inbox
               (set_thread true (set_running true (set_mid_held false self))))
             ++ output_of (stop
                  (if fst (fst (_message_loop cfg os inbox
                          (set_thread true (set_running true (set_mid_held false self)))))
                   then ret tt else wind_down cfg in_flight)
                  (state_of (_message_loop cfg os inbox
                     (set_thread true (set_running true (set_mid_held false self)))))))
            = Some false).
  { rewrite alternates_app, H1. exact H2. }
  repeat split; [exact Hall | | exact H3].
  apply alternates_unmatched in Hall. cbn [Z.b2z] in Hall. lia.
Qed.

(** X11.  A workspace notification sets the gate to whether the workspace is the
    drawing one.  After a notification for any other workspace the thread
    drops every report: whatever it receives, it emits nothing and leaves the
    listener as it is, a button held at that moment included.  After a
    notification for the drawing workspace a running thread applies reports
    again. *)
Theorem workspace_sets_the_gate (cfg : Settings) (ws_id : string) (l : Listener)
    (inbox : list get_message) :
  let l' := set_drawing_mode (String.eqb ws_id AddIn.DRAWING_WORKSPACE) l in
  AddIn.workspace_activated ws_id (Some l) = Some l' /\
  AddIn.workspace_activated ws_id None = None /\
  (ws_id <> AddIn.DRAWING_WORKSPACE ->
   state_of (receive cfg inbox l') = l' /\ output_of (receive cfg inbox l') = []) /\
  (ws_id = AddIn.DRAWING_WORKSPACE -> _running l = true ->
   output_of (receive cfg
                [GM_message {| message := WM_INPUT; lParam := pan_notification |}] l')
   = output_of (_apply cfg 100 0 0 l')).
Proof.
  cbv zeta. split; [reflexivity|]. split; [reflexivity|]. split.
  - intros Hws. apply receive_gate_closed. cbn [drawing_mode set_drawing_mode].
    apply String.eqb_neq. exact Hws.
  - intros -> Hrun. rewrite String.eqb_refl.
    rewrite receive_cons. cbn [_running set_drawing_mode]. rewrite Hrun.
    cbn [negb]. cbv zeta. rewrite output_of_mk, receive_nil, output_of_mk, app_nil_r.
    rewrite _wnd_proc_run. cbn [message lParam drawing_mode set_drawing_mode].
    change (WM_INPUT =? WM_INPUT) with true. cbv iota zeta.
    rewrite output_of_mk, _on_raw_input_run.
    replace (decode (ri_buf pan_notification)) with (Translation 100 0 0)
      by (vm_compute; reflexivity).
    reflexivity.
Qed.

Lemma workspace_sets_the_gate_witness :
  state_of (receive DEFAULT_SETTINGS
              [GM_message {| message := WM_INPUT; lParam := pan_notification |}]
              (set_drawing_mode (String.eqb "FusionSolidEnvironment" AddIn.DRAWING_WORKSPACE)
                 dragging))
  = set_drawing_mode (String.eqb "FusionSolidEnvironment" AddIn.DRAWING_WORKSPACE) dragging /\
  output_of (receive DEFAULT_SETTINGS
               [GM_message {| message := WM_INPUT; lParam := pan_notification |}]
               (set_drawing_mode (String.eqb "FusionSolidEnvironment" AddIn.DRAWING_WORKSPACE)
                  dragging))
  = [].
Proof.
  apply (proj1 (proj2 (proj2
    (workspace_sets_the_gate DEFAULT_SETTINGS "FusionSolidEnvironment" dragging
       [GM_message {| message := WM_INPUT; lParam := pan_notification |}])))).
  intros H. discriminate H.
Defined.

(** * The INPUT records *)

Lemma c_long_fits (v : Z) : c_long v = v <-> i32 v.
Proof.
  unfold c_long, i32. change (2 ^ 31) with 2147483648.
  change (2 ^ 32) with 4294967296.
  split; intros H; Z.to_euclidean_division_equations; lia.
Qed.

Lemma c_long_c_uint32 (v : Z) : i32 v -> c_long (c_uint32 (c_uint32 v)) = v.
Proof.
  unfold c_long, c_uint32, i32. change (2 ^ 31) with 2147483648.
  change (2 ^ 32) with 4294967296.
  intros H. Z.to_euclidean_division_equations. lia.
Qed.

(** X13.  What [_make] stores tells the four kinds of action apart and, as long as
    the arguments fit 32 bits, tells which arguments they had: two different
    actions never give the same record, a move keeps its components, and a
    scroll amount, stored unsigned, reads back signed as it was.  A pan
    component that does not fit a 32-bit long is stored as a different
    number. *)
Theorem input_of_keeps_the_action (a b : action) :
  (fits a -> fits b -> input_of a = input_of b -> a = b) /\
  (forall dx dy : Z,
     (mi_dx (input_mi (input_of (Move dx dy))) = dx <-> i32 dx) /\
     (mi_dy (input_mi (input_of (Move dx dy))) = dy <-> i32 dy)) /\
  (forall amount : Z,
     i32 amount ->
     c_long (mi_mouseData (input_mi (input_of (Scroll amount)))) = amount).
Proof.
  split; [|split].
  - intros Ha Hb H.
    pose proof (f_equal (fun i => mi_dwFlags (input_mi i)) H) as Hflags.
    pose proof (f_equal (fun i => mi_dx (input_mi i)) H) as Hdx.
    pose proof (f_equal (fun i => mi_dy (input_mi i)) H) as Hdy.
    pose proof (f_equal (fun i => mi_mouseData (input_mi i)) H) as Hdata.
    destruct a as [| |dx dy|amount], b as [| |dx' dy'|amount'];
      cbn [fits input_of _make input_mi mi_dwFlags mi_dx mi_dy mi_mouseData]
        in Ha, Hb, Hflags, Hdx, Hdy, Hdata;
      try (vm_compute in Hflags; discriminate Hflags);
      try reflexivity.
    + destruct Ha as [Ha1 Ha2], Hb as [Hb1 Hb2].
      apply c_long_fits in Ha1, Ha2, Hb1, Hb2. congruence.
    + rewrite <- (c_long_c_uint32 amount Ha), <- (c_long_c_uint32 amount' Hb).
      rewrite Hdata. reflexivity.
  - intros dx dy. cbn [input_of _make input_mi mi_dx mi_dy].
    split; apply c_long_fits.
  - intros amount H. cbn [input_of _make input_mi mi_mouseData].
    apply c_long_c_uint32, H.
Qed.

Lemma input_of_keeps_the_action_witness :
  c_long (mi_mouseData (input_mi (input_of (Scroll (-120))))) = -120.
Proof.
  apply (proj2 (proj2 (input_of_keeps_the_action Press Press)) (-120)).
  unfold i32. lia.
Defined.

(** * The settings of the add-in *)




(** X15.  Settings saved by the dialog survive a restart: loading the file it wrote
    and applying the result, as [run] does, gives the listener the very
    settings the dialog applied, whichever workspace is active. *)
Theorem saved_settings_are_restored (pan_scale zoom_scale dead_zone : option Q)
    (writable : bool) (cfg : Settings) (file : AddIn.settings_file)
    (active_ws : option string) :
  let r := AddIn.execute pan_scale zoom_scale dead_zone writable cfg file in
  snd r = AddIn.SettingsSaved ->
  fst (AddIn.run (snd (fst r)) active_ws) = fst (fst r).
Proof.
  cbv zeta. unfold AddIn.execute.
  destruct pan_scale as [p|], zoom_scale as [z|], dead_zone as [d|];
    try discriminate.
  destruct (Qle_bool p 0 || Qle_bool z 0 || negb (Qle_bool 0 d)); [discriminate|].
  destruct writable; [|discriminate].
  intros _. reflexivity.
Qed.

Lemma saved_settings_are_restored_witness :
  fst (AddIn.run
         (snd (fst (AddIn.execute (Some (1 # 10)) (Some (2 # 10)) (Some (61 # 2)) true
                      DEFAULT_SETTINGS AddIn.Missing)))
         (Some "FusionSolidEnvironment"%string))
  = fst (fst (AddIn.execute (Some (1 # 10)) (Some (2 # 10)) (Some (61 # 2)) true
                DEFAULT_SETTINGS AddIn.Missing)).
Proof.
  apply (saved_settings_are_restored (Some (1 # 10)) (Some (2 # 10)) (Some (61 # 2))
           true DEFAULT_SETTINGS AddIn.Missing (Some "FusionSolidEnvironment"%string)).
  reflexivity.
Defined.



(** * The measuring add-in *)

Lemma register_commands (defs commands : list Menseki.cmd) :
  fst (Menseki.register defs commands) = commands ++ defs.
Proof.
  revert commands. induction defs as [|d rest IH]; intros commands.
  - cbn. symmetry. apply app_nil_r.
  - cbn [Menseki.register].
    specialize (IH (commands ++ [d])).
    destruct (Menseki.register rest (commands ++ [d])) as [c k].
    cbn [fst] in *. rewrite IH, <- app_assoc. reflexivity.
Qed.

Lemma register_calls (defs commands : list Menseki.cmd) :
  (2 * length (snd (Menseki.register defs commands))
   = 2 * length defs * length commands + length defs * (length defs + 1))%nat.
Proof.
  revert commands. induction defs as [|d rest IH]; intros commands.
  - reflexivity.
  - cbn [Menseki.register].
    specialize (IH (commands ++ [d])).
    destruct (Menseki.register rest (commands ++ [d])) as [c k].
    cbn [snd] in *. rewrite length_app, length_map, length_app in *.
    cbn [length] in *. nia.
Qed.

Lemma run_lists (st : Menseki.module_state) :
  Menseki.command_definitions (fst (Menseki.run st))
    = Menseki.command_definitions st
      ++ [Menseki.Length; Menseki.Area; Menseki.Volume] /\
  Menseki.commands (fst (Menseki.run st))
    = Menseki.commands st ++ Menseki.command_definitions st
      ++ [Menseki.Length; Menseki.Area; Menseki.Volume].
Proof.
  unfold Menseki.run.
  pose proof (register_commands
    (Menseki.command_definitions st ++ [Menseki.Length; Menseki.Area; Menseki.Volume])
    (Menseki.commands st)) as Hcmds.
  destruct (Menseki.register _ _) as [c k]. split; [reflexivity | exact Hcmds].
Qed.

Lemma run_calls (st : Menseki.module_state) :
  (2 * length (snd (Menseki.run st))
   = 2 * (length (Menseki.command_definitions st) + 3) * length (Menseki.commands st)
     + (length (Menseki.command_definitions st) + 3)
       * (length (Menseki.command_definitions st) + 3 + 1))%nat.
Proof.
  unfold Menseki.run.
  pose proof (register_calls
    (Menseki.command_definitions st ++ [Menseki.Length; Menseki.Area; Menseki.Volume])
    (Menseki.commands st)) as Hcalls.
  destruct (Menseki.register _ _) as [c k]. cbn [snd] in *.
  rewrite length_app in Hcalls. cbn [length] in Hcalls. exact Hcalls.
Qed.

(** X17.  [run] calls [on_run] more than once per command: the call is made on
    every command registered so far each time one more is registered, so
    with [n] definitions in the list and [m] commands already there, it makes
    [n * m + n * (n + 1) / 2] calls.  It builds a command for every
    definition of the list, those of an earlier [run] included, and [stop]
    calls [on_stop] once on each command and removes none.  Loaded afresh,
    [run] calls [on_run] three times on Length, twice on Area and once on
    Volume. *)
Theorem run_calls_on_run_repeatedly (st : Menseki.module_state) :
  let n := (length (Menseki.command_definitions st) + 3)%nat in
  let m := length (Menseki.commands st) in
  (2 * length (snd (Menseki.run st)) = 2 * n * m + n * (n + 1))%nat /\
  Menseki.commands (fst (Menseki.run st))
    = Menseki.commands st ++ Menseki.command_definitions st
      ++ [Menseki.Length; Menseki.Area; Menseki.Volume] /\
  Menseki.stop (fst (Menseki.run st))
    = (fst (Menseki.run st),
       map Menseki.on_stop (Menseki.commands (fst (Menseki.run st)))) /\
  snd (Menseki.run Menseki.fresh)
    = [Menseki.on_run Menseki.Length;
       Menseki.on_run Menseki.Length; Menseki.on_run Menseki.Area;
       Menseki.on_run Menseki.Length; Menseki.on_run Menseki.Area;
       Menseki.on_run Menseki.Volume].
Proof.
  cbv zeta. destruct (run_lists st) as [_ Hcmds].
  repeat split; [apply run_calls | exact Hcmds].
Qed.

(** X18.  The lists are never emptied, so a second [run] in the same module
    registers the commands of the first again: after [run], [stop], [run]
    there are [m + 2 * d + 9] command objects for [d + 6] definitions, where
    the module had [m] commands and [d] definitions at first; loaded afresh
    that is nine command objects for three definitions written twice, and 39
    calls of [on_run] in the second [run] alone. *)
Theorem run_again_registers_again (st : Menseki.module_state) :
  let d := length (Menseki.command_definitions st) in
  let m := length (Menseki.commands st) in
  let st1 := fst (Menseki.run st) in
  let st2 := fst (Menseki.run (fst (Menseki.stop st1))) in
  length (Menseki.command_definitions st2) = (d + 6)%nat /\
  length (Menseki.commands st2) = (m + 2 * d + 9)%nat /\
  (2 * length (snd (Menseki.run (fst (Menseki.stop st1))))
   = 2 * (d + 6) * (m + d + 3) + (d + 6) * (d + 7))%nat /\
  length (snd (Menseki.run (fst (Menseki.stop (fst (Menseki.run Menseki.fresh))))))
    = 39%nat.
Proof.
  cbv zeta.
  destruct (run_lists st) as [Hd1 Hc1].
  destruct (run_lists (fst (Menseki.stop (fst (Menseki.run st))))) as [Hd2 Hc2].
  pose proof (run_calls (fst (Menseki.stop (fst (Menseki.run st))))) as Hk2.
  cbn [Menseki.stop fst] in Hd2, Hc2, Hk2 |- *.
  rewrite Hd1 in Hd2, Hc2, Hk2. rewrite Hc1 in Hc2, Hk2.
  repeat split.
  - rewrite Hd2, !length_app. cbn [length]. lia.
  - rewrite Hc2, !length_app. cbn [length]. lia.
  - rewrite Hk2, !length_app. cbn [length]. lia.
Qed.

(** * What dispatching keeps *)




(** * Direction of the zoom, and a report from the wire to the mouse *)

Lemma zoom_sign (cfg : Settings) (y : Z) :
  (0 < ZOOM_SCALE cfg)%Q ->
  (0 < y -> (zoom cfg y <= 0)%Q) /\ (y < 0 -> (0 <= zoom cfg y)%Q).
Proof.
  intros Hzs. unfold zoom.
  destruct (DEAD_ZONE cfg <=? Z.abs y); [|split; intros _; lra].
  split; intros Hy.
  - assert (inject_Z (- y) < 0)%Q
      by (change 0%Q with (inject_Z 0); rewrite <- Zlt_Qlt; lia).
    nra.
  - assert (0 < inject_Z (- y))%Q
      by (change 0%Q with (inject_Z 0); rewrite <- Zlt_Qlt; lia).
    nra.
Qed.

(** X19.  The zoom is reversed with respect to the y axis.  With a positive
    zoom scale, pushing y up from an accumulator that is zero or negative
    can only scroll by -120, and pushing y down from an accumulator that is
    zero or positive can only scroll by +120. *)
Theorem zoom_is_reversed (cfg : Settings) (x y z : Z) (self : Listener) :
  (0 < ZOOM_SCALE cfg)%Q -> (Qabs (_zoom_acc self) < 120)%Q ->
  (0 < y -> (_zoom_acc self <= 0)%Q ->
   exists k : nat,
     output_of (_apply cfg x y z self)
     = output_of (drag (pan cfg x) (pan cfg z) self) ++ repeat (Scroll (-120)) k) /\
  (y < 0 -> (0 <= _zoom_acc self)%Q ->
   exists k : nat,
     output_of (_apply cfg x y z self)
     = output_of (drag (pan cfg x) (pan cfg z) self) ++ repeat (Scroll 120) k).
Proof.
  intros Hzs Hacc.
  destruct (_apply_ticks cfg x y z self Hacc) as (k & Hout & Hlo & _ & _).
  destruct (zoom_sign cfg y Hzs) as [Hup Hdown].
  split; intros Hy Hside.
  - specialize (Hup Hy). exists k. rewrite Hout. unfold tick_of.
    replace (above_zero (_zoom_acc self + zoom cfg y)) with false; [reflexivity|].
    symmetry. apply above_zero_false. lra.
  - specialize (Hdown Hy).
    destruct (above_zero (_zoom_acc self + zoom cfg y)) eqn:E.
    + exists k. rewrite Hout. unfold tick_of. rewrite E. reflexivity.
    + apply above_zero_false in E.
      assert (Hz : (_zoom_acc self + zoom cfg y == 0)%Q) by lra.
      assert (Habs : (Qabs (_zoom_acc self + zoom cfg y) == 0)%Q)
        by (rewrite Hz; reflexivity).
      assert (Hk : k = 0%nat).
      { destruct k as [|k]; [reflexivity|].
        rewrite Nat2Z.inj_succ, <- Z.add_1_r, inject_Z_plus in Hlo.
        change (inject_Z 1) with 1%Q in Hlo.
        assert (0 <= inject_Z (Z.of_nat k))%Q
          by (change 0%Q with (inject_Z 0); rewrite <- Zle_Qle; lia).
        lra. }
      exists 0%nat. rewrite Hout, Hk. reflexivity.
Qed.

Lemma zoom_is_reversed_witness :
  exists k : nat,
    output_of (_apply DEFAULT_SETTINGS 0 2000 0 __init__)
    = output_of (drag (pan DEFAULT_SETTINGS 0) (pan DEFAULT_SETTINGS 0) __init__)
      ++ repeat (Scroll (-120)) k.
Proof.
  apply (proj1 (zoom_is_reversed DEFAULT_SETTINGS 0 2000 0 __init__
                  eq_refl eq_refl)).
  - reflexivity.
  - discriminate.
Defined.

(** X20.  From the wire to the mouse: with the gate open, a notification of
    type HID that declares at least one report of at least 7 bytes and
    starts with a translation report for [(x, y, z)] does to the listener
    exactly what [_apply] does with [(x, y, z)], whatever follows that
    report. *)
Theorem report_reaches_the_converter (cfg : Settings) (hdr : RAWINPUTHEADER)
    (n c code x y z : Z) (rest : list byte) (self : Listener) :
  drawing_mode self = true ->
  dwType hdr = RIM_TYPEHID -> u32 n -> 7 <= n -> u32 c -> c <> 0 ->
  code <> 0xFFFFFFFF ->
  i16 x -> i16 y -> i16 z ->
  let m := {| message := WM_INPUT;
              lParam := {| ri_buf := rawhid_bytes hdr n c
                                       (translation_report x y z ++ rest);
                           ri_code := code |} |} in
  state_of (_wnd_proc cfg m self) = state_of (_apply cfg x y z self) /\
  output_of (_wnd_proc cfg m self) = output_of (_apply cfg x y z self) /\
  fst (fst (_wnd_proc cfg m self)) = Return Zero.
Proof.
  intros Hgate Ht Hn H7 Hc Hc0 Hcode Hx Hy Hz. cbv zeta.
  assert (Hdec : decode (rawhid_bytes hdr n c (translation_report x y z ++ rest))
                 = Translation x y z).
  { rewrite decode_rawhid_bytes;
      [|rewrite Ht; unfold u32, RIM_TYPEHID; lia | exact Hn | exact Hc].
    rewrite Ht. change (RIM_TYPEHID =? RIM_TYPEHID) with true. cbn [negb].
    replace (c =? 0) with false by (symmetry; apply Z.eqb_neq, Hc0).
    replace (n <? 7) with false by (symmetry; apply Z.ltb_ge, H7).
    cbn [orb].
    assert (Hlen : length (translation_report x y z) = 7%nat)
      by (unfold translation_report; cbn [length];
          rewrite !length_app, !length_le_split; reflexivity).
    assert (Hsplit : firstn (Z.to_nat n) (translation_report x y z ++ rest)
              = translation_report x y z
                ++ firstn (Z.to_nat n - 7) rest).
    { rewrite firstn_app, Hlen, firstn_all2 by lia. reflexivity. }
    rewrite Hsplit. apply decode_translation_report; assumption. }
  rewrite _wnd_proc_run. cbn [message lParam]. change (WM_INPUT =? WM_INPUT) with true.
  cbv iota. rewrite Hgate. cbv zeta.
  rewrite !state_of_mk, !output_of_mk, _on_raw_input_run. cbn [ri_buf ri_code].
  rewrite Hdec, length_rawhid_bytes.
  replace (code =? 0xFFFFFFFF) with false by (symmetry; apply Z.eqb_neq, Hcode).
  cbn [Nat.eqb Nat.add hdr_sz]. repeat split; reflexivity.
Qed.

Lemma report_reaches_the_converter_witness :
  output_of (_wnd_proc DEFAULT_SETTINGS
    {| message := WM_INPUT;
       lParam := {| ri_buf := rawhid_bytes (hid_header 46) 7 2
                                (translation_report 100 0 0
                                 ++ translation_report 0 (-200) 0);
                    ri_code := 46 |} |} drawing)
  = output_of (_apply DEFAULT_SETTINGS 100 0 0 drawing).
Proof.
  apply (report_reaches_the_converter DEFAULT_SETTINGS (hid_header 46) 7 2 46
           100 0 0 (translation_report 0 (-200) 0) drawing);
    try reflexivity; unfold u32, i16; lia.
Defined.
